(** * The JOS kernel monitor: stack backtrace and mapping inspector

    A shallow embedding of [mon_backtrace] and [mon_showmap] from
    [kern/monitor.c], with the machine they run on made explicit:
    32-bit words, a memory that is read word by word, the frame-pointer
    register, and a trace that records every interaction of the two
    commands with their collaborators (memory loads, the debug-info
    resolver, the page-table walker and the console). *)

From Stdlib Require Import ZArith List String Ascii Bool Lia.
Import ListNotations.
Open Scope Z_scope.

(** ** Machine words *)

(** [uint32_t], [uintptr_t], [size_t], [pte_t] are all 32 bits wide on
    the i386 target of the kernel: a value of that type is a [Z] in
    [0, 2^32), and every arithmetic result is reduced by [wrap32]. *)
Definition WORD : Z := 2 ^ 32.

Definition wrap32 (x : Z) : Z := x mod WORD.

(** [!!x] of C: 0 when [x] is 0, else 1. *)
Definition notnot (x : Z) : Z := if x =? 0 then 0 else 1.

(** [p[i]] for [uint32_t *p]: the address of the [i]-th word after [p]. *)
Definition idx (p i : Z) : Z := wrap32 (p + 4 * i).

(** Modelled from the spec: [inc/mmu.h] and [inc/types.h] are not among
    the sources.  [PGSIZE] is the spec's PAGE_SIZE, 4096 bytes (the
    4KB page of the usage message); [PTE_P], [PTE_W] and [PTE_U] are the
    present, writable and user-accessible bits of an i386 page-table
    entry; [PTE_ADDR] keeps the frame bits of an entry and clears its
    page-offset bits; [ROUNDDOWN a n] is [a] rounded down to a multiple
    of [n]. *)
Definition PGSIZE : Z := 4096.
Definition PTE_P : Z := 1.
Definition PTE_W : Z := 2.
Definition PTE_U : Z := 4.
Definition PTE_ADDR (pte : Z) : Z := Z.land pte (Z.lnot 4095).
Definition ROUNDDOWN (a n : Z) : Z := wrap32 (a - a mod n).

(** ** Console output and the interaction trace *)

Definition nl : string := String (ascii_of_nat 10) EmptyString.

(** One variadic argument of [cprintf]. *)
Inductive Arg : Type :=
| ArgInt (z : Z)
| ArgStr (s : string).

(** One call of [cprintf]: the format string and its arguments. *)
Definition CprintfCall : Type := (string * list Arg)%type.

Inductive Event : Type :=
| EvLoad (addr : Z)
| EvResolve (addr : Z)
| EvWalk (pgdir va create : Z)
| EvCprintf (fmt : string) (args : list Arg).

(** What reached the console, in order. *)
Fixpoint console (tr : list Event) : list CprintfCall :=
  match tr with
  | [] => []
  | EvCprintf fmt args :: tr' => (fmt, args) :: console tr'
  | _ :: tr' => console tr'
  end.

(** The calls made to the page-table walker, in order. *)
Fixpoint walks (tr : list Event) : list (Z * Z * Z) :=
  match tr with
  | [] => []
  | EvWalk pgdir va create :: tr' => (pgdir, va, create) :: walks tr'
  | _ :: tr' => walks tr'
  end.

(** The bytes on the console, for a formatter [render] of one call. *)
Definition console_bytes (render : CprintfCall -> string)
  (calls : list CprintfCall) : string :=
  fold_right (fun c acc => (render c ++ acc)%string) EmptyString calls.

(** The first argument of a report row of [mon_showmap]: its virtual
    address. *)
Definition row_va (c : CprintfCall) : option Z :=
  match snd c with
  | ArgInt va :: _ => Some va
  | _ => None
  end.

(** [struct Eipdebuginfo] of [kern/kdebug.h], with the fields the
    monitor reads. *)
Record Eipdebuginfo : Type := {
  eip_file : string;
  eip_line : Z;
  eip_fn_name : string;
  eip_fn_namelen : Z;
  eip_fn_addr : Z
}.

(** ** Format strings of the two commands *)

Definition fmt_backtrace_header : string := "Stack backtrace:" ++ nl.
Definition fmt_frame : string :=
  "ebp %x  eip %x  args %08x %08x %08x %08x %08x" ++ nl.
Definition fmt_location : string := "     %s:%d: %.*s+%d" ++ nl.
Definition msg : string :=
  "Usage: showmappings <start> [<length>]" ++ nl ++
  "length represents a 4KB page" ++ nl.
Definition fmt_mapped : string :=
  "VA: 0x%08x, PA: 0x%08x, U-bit: %d, W-bit: %d" ++ nl.
Definition fmt_nomap : string := "VA: 0x%08x, PA: No Mapping" ++ nl.

(** ** The monitor commands *)

Section Monitor.

(** The collaborators of the monitor, none of which is defined in
    [kern/monitor.c]: the memory of the machine ([Mem], read one
    32-bit word at a time by [mem_read]), the global [kern_pgdir],
    the page-table walker [pgdir_walk] of [kern/pmap.c] (which may
    change memory when it allocates a table), the resolver
    [debuginfo_eip] of [kern/kdebug.c] (its return code and the
    [info] it fills in), [strtol] of [lib/string.c] (string and
    base; the end pointer is always null here) and the trap frame
    type. *)
Variable Mem : Type.
Variable mem_read : Mem -> Z -> Z.
Variable kern_pgdir : Mem -> Z.
Variable pgdir_walk : Mem -> Z -> Z -> Z -> Z * Mem.
Variable debuginfo_eip : Z -> Z * Eipdebuginfo.
Variable strtol : string -> Z -> Z.
Variable Trapframe : Type.

Record Machine : Type := {
  ebp_reg : Z;
  mem : Mem;
  trace : list Event
}.

Definition log (ev : Event) (st : Machine) : Machine :=
  {| ebp_reg := ebp_reg st; mem := mem st; trace := trace st ++ [ev] |}.

(** A computation on the machine; [None] is a loop that was not
    given enough fuel to finish. *)
Definition M (A : Type) : Type := Machine -> option (A * Machine).

Definition ret {A} (a : A) : M A := fun st => Some (a, st).

Definition bind {A B} (m : M A) (k : A -> M B) : M B :=
  fun st => match m st with
            | Some (a, st') => k a st'
            | None => None
            end.

Definition out_of_fuel {A} : M A := fun _ => None.

Notation "x <- m ;; k" := (bind m (fun x => k))
  (at level 61, m at next level, right associativity).
Notation "m ;;; k" := (bind m (fun _ => k))
  (at level 61, right associativity).

(** [read_ebp()] of [inc/x86.h]: the frame-pointer register. *)
Definition read_ebp : M Z := fun st => Some (wrap32 (ebp_reg st), st).

(** [*p] for [uint32_t *p]. *)
Definition load32 (addr : Z) : M Z :=
  fun st => Some (wrap32 (mem_read (mem st) addr), log (EvLoad addr) st).

Definition cprintf (fmt : string) (args : list Arg) : M unit :=
  fun st => Some (tt, log (EvCprintf fmt args) st).

Definition call_debuginfo_eip (addr : Z) : M (Z * Eipdebuginfo) :=
  fun st => Some (debuginfo_eip addr, log (EvResolve addr) st).

Definition get_kern_pgdir : M Z :=
  fun st => Some (wrap32 (kern_pgdir (mem st)), st).

Definition call_pgdir_walk (pgdir va create : Z) : M Z :=
  fun st =>
    let '(pte, m') := pgdir_walk (mem st) pgdir va create in
    Some (wrap32 pte,
          {| ebp_reg := ebp_reg st; mem := m';
             trace := trace st ++ [EvWalk pgdir va create] |}).

(** *** [mon_backtrace] *)

(** The body of the [while] loop of [mon_backtrace] (lines 75 to 78);
    it returns the new [ebp].  The arguments of a [cprintf] are
    evaluated from left to right. *)
Definition backtrace_body (ebp prev : Z) (info : Eipdebuginfo) : M Z :=
  eip <- load32 (idx prev 1) ;;
  a2 <- load32 (idx prev 2) ;;
  a3 <- load32 (idx prev 3) ;;
  a4 <- load32 (idx prev 4) ;;
  a5 <- load32 (idx prev 5) ;;
  a6 <- load32 (idx prev 6) ;;
  cprintf fmt_frame
    [ArgInt ebp; ArgInt eip; ArgInt a2; ArgInt a3; ArgInt a4; ArgInt a5;
     ArgInt a6] ;;;
  eip' <- load32 (idx prev 1) ;;
  cprintf fmt_location
    [ArgStr (eip_file info); ArgInt (eip_line info);
     ArgInt (eip_fn_namelen info); ArgStr (eip_fn_name info);
     ArgInt (wrap32 (eip' - eip_fn_addr info))] ;;;
  load32 prev.

(** [while (ebp != 0 && debuginfo_eip(prev[1], &info) == 0) { ... }];
    one unit of fuel is spent each time the body is entered. *)
Fixpoint backtrace_loop (fuel : nat) (ebp prev : Z) : M unit :=
  if ebp =? 0 then ret tt
  else
    eip <- load32 (idx prev 1) ;;
    r <- call_debuginfo_eip eip ;;
    if fst r =? 0 then
      match fuel with
      | O => out_of_fuel
      | S fuel' =>
          ebp' <- backtrace_body ebp prev (snd r) ;;
          backtrace_loop fuel' ebp' ebp'
      end
    else ret tt.

Definition mon_backtrace (fuel : nat) (argc : Z) (argv : list string)
  (tf : option Trapframe) : M Z :=
  ebp <- read_ebp ;;
  let prev := ebp in
  cprintf fmt_backtrace_header [] ;;;
  backtrace_loop fuel ebp prev ;;;
  ret 0.

(** *** [mon_showmap] *)

(** [argv[i]]; the command interpreter passes [argc] strings. *)
Definition argv_at (argv : list string) (i : nat) : string :=
  nth i argv EmptyString.

(** The body of the [while] loop of [mon_showmap] without the final
    increment (lines 108 to 114). *)
Definition showmap_body (vstart : Z) : M unit :=
  pgdir <- get_kern_pgdir ;;
  pte <- call_pgdir_walk pgdir vstart 0 ;;
  present <- (if pte =? 0 then ret false
              else e <- load32 pte ;;
                   ret (negb (Z.land e PTE_P =? 0))) ;;
  if (present : bool) then
    e1 <- load32 pte ;;
    e2 <- load32 pte ;;
    e3 <- load32 pte ;;
    cprintf fmt_mapped
      [ArgInt vstart; ArgInt (PTE_ADDR e1);
       ArgInt (notnot (Z.land e2 PTE_U));
       ArgInt (notnot (Z.land e3 PTE_W))]
  else
    cprintf fmt_nomap [ArgInt vstart].

(** [while (vstart < vend) { ...; vstart += PGSIZE; }] *)
Fixpoint showmap_loop (fuel : nat) (vstart vend : Z) : M unit :=
  if vstart <? vend then
    match fuel with
    | O => out_of_fuel
    | S fuel' =>
        showmap_body vstart ;;;
        showmap_loop fuel' (wrap32 (vstart + PGSIZE)) vend
    end
  else ret tt.

Definition mon_showmap (fuel : nat) (argc : Z) (argv : list string)
  (tf : option Trapframe) : M Z :=
  if argc <? 2 then
    cprintf msg [] ;;;
    ret 0
  else
    let vstart := wrap32 (strtol (argv_at argv 1) 0) in
    let vlen := if argc >=? 3 then wrap32 (strtol (argv_at argv 2) 0)
                else 1 in
    let vend := wrap32 (vstart + wrap32 (vlen * PGSIZE)) in
    let vstart := ROUNDDOWN vstart PGSIZE in
    let vend := ROUNDDOWN vend PGSIZE in
    showmap_loop fuel vstart vend ;;;
    ret 0.

(** *** Notions used to state the properties of the two commands *)

(** A command returns [r] (its status and the machine it leaves) when
    some amount of fuel lets its loop finish with [r]. *)
Definition backtrace_returns (argc : Z) (argv : list string)
  (tf : option Trapframe) (st : Machine) (r : Z * Machine) : Prop :=
  exists fuel, mon_backtrace fuel argc argv tf st = Some r.

Definition showmap_returns (argc : Z) (argv : list string)
  (tf : option Trapframe) (st : Machine) (r : Z * Machine) : Prop :=
  exists fuel, mon_showmap fuel argc argv tf st = Some r.

(** The start address and the page count [mon_showmap] parses from
    its arguments (lines 99 and 100). *)
Definition start_address (argv : list string) : Z :=
  wrap32 (strtol (argv_at argv 1) 0).

Definition page_count (argc : Z) (argv : list string) : Z :=
  if argc >=? 3 then wrap32 (strtol (argv_at argv 2) 0) else 1.

(** The two ends of the range the loop of [mon_showmap] runs over
    (lines 101 to 104). *)
Definition first_page (argv : list string) : Z :=
  ROUNDDOWN (start_address argv) PGSIZE.

Definition end_page (argc : Z) (argv : list string) : Z :=
  ROUNDDOWN
    (wrap32 (start_address argv + wrap32 (page_count argc argv * PGSIZE)))
    PGSIZE.

(** The number of times the loop body runs. *)
Definition pages_inspected (argc : Z) (argv : list string) : nat :=
  Z.to_nat ((end_page argc argv - first_page argv) / PGSIZE).

(** What a lookup of [va] without creation returns in memory [m]:
    the pointer to the entry (null when there is none) and the entry
    read through that pointer. *)
Definition lookup_ptr (m : Mem) (va : Z) : Z :=
  wrap32 (fst (pgdir_walk m (wrap32 (kern_pgdir m)) va 0)).

Definition lookup_mem (m : Mem) (va : Z) : Mem :=
  snd (pgdir_walk m (wrap32 (kern_pgdir m)) va 0).

Definition lookup_entry (m : Mem) (va : Z) : Z :=
  wrap32 (mem_read (lookup_mem m va) (lookup_ptr m va)).

(** The report row the loop body prints for [va] in memory [m]. *)
Definition lookup_row (m : Mem) (va : Z) : CprintfCall :=
  let e := lookup_entry m va in
  if (lookup_ptr m va =? 0) || (Z.land e PTE_P =? 0) then
    (fmt_nomap, [ArgInt va])
  else
    (fmt_mapped,
     [ArgInt va; ArgInt (PTE_ADDR e); ArgInt (notnot (Z.land e PTE_U));
      ArgInt (notnot (Z.land e PTE_W))]).

(** The rows of [n] consecutive pages from [va] and the memory the
    [n] lookups leave, each lookup running in the memory left by the
    one before. *)
Fixpoint scan (n : nat) (va : Z) (m : Mem) : list CprintfCall * Mem :=
  match n with
  | O => ([], m)
  | S n' =>
      let r := scan n' (va + PGSIZE) (lookup_mem m va) in
      (lookup_row m va :: fst r, snd r)
  end.

(** The contract of the walker in its non-creating mode: asked not to
    create, it leaves memory as it found it. *)
Definition walk_reads_only : Prop :=
  forall m pgdir va, snd (pgdir_walk m pgdir va 0) = m.

(** The word in slot [i] of the frame at [fp]. *)
Definition slot (m : Mem) (fp i : Z) : Z :=
  wrap32 (mem_read m (idx fp i)).

(** The return address of the frame at [fp] resolves. *)
Definition resolvable (m : Mem) (fp : Z) : bool :=
  fst (debuginfo_eip (slot m fp 1)) =? 0.

(** [frame_path m ebp fps stop]: [fps] are the frame pointers of a
    chain in memory [m] that starts at [ebp], none of them zero, each
    frame saving the pointer of the next, the last one saving
    [stop].  A chain that ends is a path to zero. *)
Fixpoint frame_path (m : Mem) (ebp : Z) (fps : list Z) (stop : Z) : bool :=
  match fps with
  | [] => ebp =? stop
  | fp :: fps' =>
      (ebp =? fp) && negb (fp =? 0) &&
      frame_path m (slot m fp 0) fps' stop
  end.

Definition frame_chain (m : Mem) (ebp : Z) (fps : list Z) : bool :=
  frame_path m ebp fps 0.

(** The two lines [mon_backtrace] prints for the frame at [fp]. *)
Definition frame_entry (m : Mem) (fp : Z) : list CprintfCall :=
  let info := snd (debuginfo_eip (slot m fp 1)) in
  [ (fmt_frame,
     [ArgInt fp; ArgInt (slot m fp 1); ArgInt (slot m fp 2);
      ArgInt (slot m fp 3); ArgInt (slot m fp 4); ArgInt (slot m fp 5);
      ArgInt (slot m fp 6)]);
    (fmt_location,
     [ArgStr (eip_file info); ArgInt (eip_line info);
      ArgInt (eip_fn_namelen info); ArgStr (eip_fn_name info);
      ArgInt (wrap32 (slot m fp 1 - eip_fn_addr info))]) ].

End Monitor.

Arguments Machine : clear implicits.
Arguments M : clear implicits.
Arguments ebp_reg {Mem} _.
Arguments mem {Mem} _.
Arguments trace {Mem} _.
Arguments Build_Machine {Mem} _ _ _.
Arguments log {Mem} _ _.
Arguments mon_backtrace {Mem} _ _ {Trapframe} _ _ _ _ _.
Arguments mon_showmap {Mem} _ _ _ _ {Trapframe} _ _ _ _ _.
Arguments backtrace_returns {Mem} _ _ {Trapframe} _ _ _ _ _.
Arguments showmap_returns {Mem} _ _ _ _ {Trapframe} _ _ _ _ _.
Arguments backtrace_body {Mem} _ _ _ _ _.
Arguments backtrace_loop {Mem} _ _ _ _ _ _.
Arguments showmap_body {Mem} _ _ _ _ _.
Arguments showmap_loop {Mem} _ _ _ _ _ _ _.
Arguments lookup_ptr {Mem} _ _ _ _.
Arguments lookup_mem {Mem} _ _ _ _.
Arguments lookup_entry {Mem} _ _ _ _ _.
Arguments lookup_row {Mem} _ _ _ _ _.
Arguments scan {Mem} _ _ _ _ _ _.
Arguments walk_reads_only {Mem} _.
Arguments slot {Mem} _ _ _ _.
Arguments resolvable {Mem} _ _ _ _.
Arguments frame_path {Mem} _ _ _ _ _.
Arguments frame_chain {Mem} _ _ _ _.
Arguments frame_entry {Mem} _ _ _ _.

(** ** The command interpreter

    The rest of [kern/monitor.c]: the command table, [mon_help],
    [mon_kerninfo], the tokenizer and dispatcher [runcmd] and the
    read-eval loop [monitor]. *)

Definition MAXARGS : Z := 16.

(** [WHITESPACE]: tab, carriage return, newline and space. *)
Definition WHITESPACE : string :=
  String "009" (String "013" (String "010" (String " " EmptyString))).

Definition fmt_help : string := "%s - %s" ++ nl.
Definition fmt_too_many : string := "Too many arguments (max %d)" ++ nl.
Definition fmt_unknown : string := "Unknown command '%s'" ++ nl.
Definition fmt_welcome : string := "Welcome to the JOS kernel monitor!" ++ nl.
Definition fmt_type_help : string :=
  "Type 'help' for a list of commands." ++ nl.
Definition fmt_symbols : string := "Special kernel symbols:" ++ nl.
Definition fmt_sym_start : string :=
  "  _start                  %08x (phys)" ++ nl.
Definition fmt_sym_entry : string :=
  "  entry  %08x (virt)  %08x (phys)" ++ nl.
Definition fmt_sym_etext : string :=
  "  etext  %08x (virt)  %08x (phys)" ++ nl.
Definition fmt_sym_edata : string :=
  "  edata  %08x (virt)  %08x (phys)" ++ nl.
Definition fmt_sym_end : string :=
  "  end    %08x (virt)  %08x (phys)" ++ nl.
Definition fmt_footprint : string :=
  "Kernel executable memory footprint: %dKB" ++ nl.

(** A value of type [int]: the 32-bit word read as a signed number. *)
Definition signed32 (x : Z) : Z :=
  if wrap32 x <? 2 ^ 31 then wrap32 x else wrap32 x - WORD.

(** The function pointers of the command table. *)
Inductive Handler : Type :=
| fn_mon_help
| fn_mon_kerninfo
| fn_mon_backtrace
| fn_mon_showmap.

(** [struct Command]. *)
Record Command : Type := {
  name : string;
  desc : string;
  func : Handler
}.

Definition commands : list Command :=
  [ {| name := "help"; desc := "Display this list of commands";
       func := fn_mon_help |};
    {| name := "kerninfo"; desc := "Display information about the kernel";
       func := fn_mon_kerninfo |};
    {| name := "backtrace"; desc := "Display stack backtrace information";
       func := fn_mon_backtrace |};
    {| name := "showmap";
       desc := "Display the physical address of virtual address";
       func := fn_mon_showmap |} ].

(** Modelled from the spec: [strchr] and [strcmp] of [lib/string.c]
    are not among the sources.  [strchr s c] tells whether the
    character [c] occurs in [s] (the monitor only asks for characters
    other than the terminator); [strcmp p q] is the difference of the
    first two characters in which [p] and [q] differ, the end of a
    string counting as the character 0. *)
Fixpoint strchr (s : string) (c : ascii) : bool :=
  match s with
  | EmptyString => false
  | String a s' => Ascii.eqb a c || strchr s' c
  end.

Fixpoint strcmp (p q : string) : Z :=
  match p, q with
  | EmptyString, EmptyString => 0
  | EmptyString, String b _ => - Z.of_nat (nat_of_ascii b)
  | String a _, EmptyString => Z.of_nat (nat_of_ascii a)
  | String a p', String b q' =>
      if Ascii.eqb a b then strcmp p' q'
      else Z.of_nat (nat_of_ascii a) - Z.of_nat (nat_of_ascii b)
  end.

(** *** The line buffer

    [runcmd] walks the line it is given with the pointer [buf], which
    only moves forward.  The buffer is kept as the characters the
    pointer has passed (last one first, as they are now in memory) and
    the characters from the pointer on; the terminator of the line
    comes after the last of them, so that [*buf] on an exhausted
    buffer is 0. *)

(** [*buf] *)
Definition peek (rest : list ascii) : ascii :=
  match rest with
  | [] => zero
  | c :: _ => c
  end.

Definition is_space (c : ascii) : bool :=
  negb (Ascii.eqb c zero) && strchr WHITESPACE c.

Definition in_arg (c : ascii) : bool :=
  negb (Ascii.eqb c zero) && negb (strchr WHITESPACE c).

(** [while ( *buf && strchr(WHITESPACE, *buf)) *buf++ = 0;] *)
Fixpoint gobble (done rest : list ascii) : list ascii * list ascii :=
  match rest with
  | [] => (done, rest)
  | c :: rest' =>
      if is_space c then gobble (zero :: done) rest' else (done, rest)
  end.

(** [while ( *buf && !strchr(WHITESPACE, *buf)) buf++;] *)
Fixpoint skip_arg (done rest : list ascii) : list ascii * list ascii :=
  match rest with
  | [] => (done, rest)
  | c :: rest' =>
      if in_arg c then skip_arg (c :: done) rest' else (done, rest)
  end.

(** The string a [char *] into the buffer points to: the characters
    from offset [p] up to the first 0. *)
Fixpoint c_string_from (l : list ascii) : string :=
  match l with
  | [] => EmptyString
  | c :: l' =>
      if Ascii.eqb c zero then EmptyString else String c (c_string_from l')
  end.

Definition c_string (buffer : list ascii) (p : nat) : string :=
  c_string_from (skipn p buffer).

(** How the parsing loop of [runcmd] ends: with too many arguments,
    or with the buffer as the loop left it and the pointers stored in
    [argv] (offsets into the buffer), [argc] being their number. *)
Inductive Parse : Type :=
| TooMany
| Parsed (buffer : list ascii) (argv : list nat).

(** The [while (1)] loop of [runcmd] (lines 140 to 155); one unit of
    fuel is spent on each turn. *)
Fixpoint parse_args (fuel : nat) (done rest : list ascii)
  (argv : list nat) : option Parse :=
  match fuel with
  | O => None
  | S fuel' =>
      let '(done, rest) := gobble done rest in
      if Ascii.eqb (peek rest) zero then
        Some (Parsed (rev done ++ rest) argv)
      else if Z.of_nat (List.length argv) =? MAXARGS - 1 then
        Some TooMany
      else
        let '(done', rest') := skip_arg done rest in
        parse_args fuel' done' rest' (argv ++ [List.length done])
  end.

(** *** The words of a line

    The arguments a reader of the line sees: the maximal runs of
    characters that are not whitespace, up to the first 0.  [word]
    holds the run being read. *)
Definition flush (word : string) : list string :=
  match word with
  | EmptyString => []
  | _ => [word]
  end.

Fixpoint split_line (l : list ascii) (word : string) : list string :=
  match l with
  | [] => flush word
  | c :: l' =>
      if Ascii.eqb c zero then flush word
      else if strchr WHITESPACE c then flush word ++ split_line l' EmptyString
      else split_line l' (word ++ String c EmptyString)
  end.

Definition words (line : list ascii) : list string :=
  split_line line EmptyString.

(** The line as parsing leaves it: every whitespace character before
    the first 0 overwritten with 0. *)
Fixpoint blanked (l : list ascii) : list ascii :=
  match l with
  | [] => []
  | c :: l' =>
      if Ascii.eqb c zero then l
      else (if strchr WHITESPACE c then zero else c) :: blanked l'
  end.

(** The words of a command line written with one space between
    them. *)
Fixpoint join_words (ws : list string) : list ascii :=
  match ws with
  | [] => []
  | [w] => list_ascii_of_string w
  | w :: ws' => list_ascii_of_string w ++ " "%char :: join_words ws'
  end.

(** A string that can be an argument: not empty, and without
    whitespace or 0. *)
Definition is_word (w : string) : bool :=
  negb (String.eqb w EmptyString) &&
  forallb in_arg (list_ascii_of_string w).

(** A string without the character 0, as every C string is. *)
Definition nul_free (s : string) : bool :=
  forallb (fun c => negb (Ascii.eqb c zero)) (list_ascii_of_string s).

Section Interpreter.

Variable Mem : Type.
Variable mem_read : Mem -> Z -> Z.
Variable kern_pgdir : Mem -> Z.
Variable pgdir_walk : Mem -> Z -> Z -> Z -> Z * Mem.
Variable debuginfo_eip : Z -> Z * Eipdebuginfo.
Variable strtol : string -> Z -> Z.
Variable Trapframe : Type.

(** What else the rest of the file takes from outside: the addresses
    of the linker symbols [_start], [entry], [etext], [edata] and
    [end], [KERNBASE] of [inc/memlayout.h], the macro [ROUNDUP] of
    [inc/types.h] and [print_trapframe] of [kern/trap.c]. *)
Variable _start entry etext edata end_ : Z.
Variable KERNBASE : Z.
Variable ROUNDUP : Z -> Z -> Z.
Variable print_trapframe : Trapframe -> Machine Mem -> Machine Mem.

Local Notation "x <- m ;; k" := (bind Mem m (fun x => k))
  (at level 61, m at next level, right associativity).
Local Notation "m ;;; k" := (bind Mem m (fun _ => k))
  (at level 61, right associativity).
Local Abbreviation ret := (ret Mem).
Local Abbreviation cprintf := (cprintf Mem).

(** The [for] loop of [mon_help] over the entries of the table. *)
Fixpoint help_loop (cmds : list Command) : M Mem unit :=
  match cmds with
  | [] => ret tt
  | c :: cmds' =>
      cprintf fmt_help [ArgStr (name c); ArgStr (desc c)] ;;;
      help_loop cmds'
  end.

Definition mon_help (argc : Z) (argv : list string)
  (tf : option Trapframe) : M Mem Z :=
  help_loop commands ;;;
  ret 0.

Definition mon_kerninfo (argc : Z) (argv : list string)
  (tf : option Trapframe) : M Mem Z :=
  cprintf fmt_symbols [] ;;;
  cprintf fmt_sym_start [ArgInt _start] ;;;
  cprintf fmt_sym_entry [ArgInt entry; ArgInt (wrap32 (entry - KERNBASE))] ;;;
  cprintf fmt_sym_etext [ArgInt etext; ArgInt (wrap32 (etext - KERNBASE))] ;;;
  cprintf fmt_sym_edata [ArgInt edata; ArgInt (wrap32 (edata - KERNBASE))] ;;;
  cprintf fmt_sym_end [ArgInt end_; ArgInt (wrap32 (end_ - KERNBASE))] ;;;
  cprintf fmt_footprint
    [ArgInt (Z.quot (ROUNDUP (signed32 (end_ - entry)) 1024) 1024)] ;;;
  ret 0.

(** [commands[i].func(argc, argv, tf)] *)
Definition call_command (f : Handler) (fuel : nat) (argc : Z)
  (argv : list string) (tf : option Trapframe) : M Mem Z :=
  match f with
  | fn_mon_help => mon_help argc argv tf
  | fn_mon_kerninfo => mon_kerninfo argc argv tf
  | fn_mon_backtrace => mon_backtrace mem_read debuginfo_eip fuel argc argv tf
  | fn_mon_showmap =>
      mon_showmap mem_read kern_pgdir pgdir_walk strtol fuel argc argv tf
  end.

(** The lookup loop of [runcmd] (lines 161 to 166). *)
Fixpoint lookup_command (cmds : list Command) (fuel : nat) (argc : Z)
  (argv : list string) (tf : option Trapframe) : M Mem Z :=
  match cmds with
  | [] =>
      cprintf fmt_unknown [ArgStr (argv_at argv 0)] ;;;
      ret 0
  | c :: cmds' =>
      if strcmp (argv_at argv 0) (name c) =? 0 then
        call_command (func c) fuel argc argv tf
      else lookup_command cmds' fuel argc argv tf
  end.

(** [runcmd]; the strings of [argv] are read in the buffer as the
    parsing loop left it. *)
Definition runcmd (fuel : nat) (buf : list ascii) (tf : option Trapframe)
  : M Mem Z :=
  match parse_args fuel [] buf [] with
  | None => out_of_fuel Mem
  | Some TooMany =>
      cprintf fmt_too_many [ArgInt MAXARGS] ;;;
      ret 0
  | Some (Parsed buffer ptrs) =>
      let argc := Z.of_nat (List.length ptrs) in
      let argv := map (c_string buffer) ptrs in
      if argc =? 0 then ret 0
      else lookup_command commands fuel argc argv tf
  end.

(** Modelled from the spec: [readline] of [lib/readline.c] is not
    among the sources.  It reads one line from the console device;
    [lines] are the results of its successive calls (no line when it
    returns null), and once they are used up the monitor is left
    waiting for the next one.  The loop tells whether it was left by
    [break]. *)
Fixpoint monitor_loop (fuel : nat) (lines : list (option (list ascii)))
  (tf : option Trapframe) : M Mem bool :=
  match lines with
  | [] => ret false
  | None :: lines' => monitor_loop fuel lines' tf
  | Some buf :: lines' =>
      status <- runcmd fuel buf tf ;;
      if status <? 0 then ret true
      else monitor_loop fuel lines' tf
  end.

Definition monitor (fuel : nat) (lines : list (option (list ascii)))
  (tf : option Trapframe) : M Mem bool :=
  cprintf fmt_welcome [] ;;;
  cprintf fmt_type_help [] ;;;
  (match tf with
   | Some t => fun st => Some (tt, print_trapframe t st)
   | None => ret tt
   end) ;;;
  monitor_loop fuel lines tf.

(** The machine as [monitor] enters its loop: the two lines of
    welcome printed, then the trap frame if there is one. *)
Definition monitor_entry (tf : option Trapframe) (st : Machine Mem)
  : Machine Mem :=
  let welcomed :=
    log (EvCprintf fmt_type_help []) (log (EvCprintf fmt_welcome []) st) in
  match tf with
  | Some t => print_trapframe t welcomed
  | None => welcomed
  end.

(** [session_run fuel tf lines st st']: the lines read, taken in
    order, lead from [st] to [st']; a failed read changes nothing, and
    each line read is run by [runcmd], which returns 0, on the machine
    the line before it left. *)
Inductive session_run (fuel : nat) (tf : option Trapframe)
  : list (option (list ascii)) -> Machine Mem -> Machine Mem -> Prop :=
| session_over (st : Machine Mem) : session_run fuel tf [] st st
| session_no_line (lines : list (option (list ascii)))
    (st st' : Machine Mem) :
    session_run fuel tf lines st st' ->
    session_run fuel tf (None :: lines) st st'
| session_line (buf : list ascii) (lines : list (option (list ascii)))
    (st st1 st' : Machine Mem) :
    runcmd fuel buf tf st = Some (0, st1) ->
    session_run fuel tf lines st1 st' ->
    session_run fuel tf (Some buf :: lines) st st'.

End Interpreter.

Arguments mon_help {Mem Trapframe} _ _ _ _.
Arguments mon_kerninfo {Mem Trapframe} _ _ _ _ _ _ _ _ _ _ _.
Arguments call_command {Mem} _ _ _ _ _ {Trapframe} _ _ _ _ _ _ _ _ _ _ _ _.
Arguments lookup_command {Mem} _ _ _ _ _ {Trapframe} _ _ _ _ _ _ _ _ _ _ _ _ _.
Arguments runcmd {Mem} _ _ _ _ _ {Trapframe} _ _ _ _ _ _ _ _ _ _ _.
Arguments monitor_loop {Mem} _ _ _ _ _ {Trapframe} _ _ _ _ _ _ _ _ _ _ _.
Arguments monitor {Mem} _ _ _ _ _ {Trapframe} _ _ _ _ _ _ _ _ _ _ _ _.
Arguments help_loop {Mem} _ _.
Arguments monitor_entry {Mem Trapframe} _ _ _.
Arguments session_run {Mem} _ _ _ _ _ {Trapframe} _ _ _ _ _ _ _ _ _ _ _ _.
Arguments strchr : simpl never.

(** ** A concrete machine

    A small instance of the collaborators, on which the commands can
    be run: a memory given by a finite table, a two-level page-table
    walker, a resolver over a table of functions and a numeric
    parser. *)

Module Demo.

Definition Mem : Type := list (Z * Z).

Fixpoint mem_read (m : Mem) (addr : Z) : Z :=
  match m with
  | [] => 0
  | (a, w) :: m' => if a =? addr then w else mem_read m' addr
  end.

Definition KERNBASE : Z := 0xF0000000.
Definition kern_pgdir (_ : Mem) : Z := 0xF0110000.

(** Modelled from the spec: [pgdir_walk] of [kern/pmap.c] is not
    among the sources.  Given a root table and a virtual address it
    returns the slot of the leaf entry for that address in a
    two-level table, or null when the intermediate table is missing;
    it allocates the missing table only when [create] is not zero
    (here at the fixed physical page [0x3FF000]). *)
Definition pgdir_walk (m : Mem) (pgdir va create : Z) : Z * Mem :=
  let pde_slot := wrap32 (pgdir + 4 * Z.shiftr va 22) in
  let pde := mem_read m pde_slot in
  let ptx := Z.land (Z.shiftr va 12) 1023 in
  if negb (Z.land pde PTE_P =? 0) then
    (wrap32 (PTE_ADDR pde + KERNBASE + 4 * ptx), m)
  else if create =? 0 then (0, m)
  else
    let pa := 0x3FF000 in
    (wrap32 (pa + KERNBASE + 4 * ptx),
     (pde_slot, Z.lor pa (Z.lor PTE_P (Z.lor PTE_W PTE_U))) :: m).

(** Modelled from the spec: [debuginfo_eip] of [kern/kdebug.c] is
    not among the sources.  It maps an instruction address to file
    name, line number, enclosing function name and function start
    address, and fails (a negative code) on an address outside the
    known code ranges.  Each known function is given here by its
    start, its end and its name. *)
Definition functions : list (Z * Z * string) :=
  [ (0xF0100000, 0xF0100100, "entry"%string);
    (0xF0100100, 0xF0100200, "A"%string);
    (0xF0100200, 0xF0100300, "B"%string) ].

Definition unknown_info : Eipdebuginfo :=
  {| eip_file := "<unknown>"; eip_line := 0; eip_fn_name := "<unknown>";
     eip_fn_namelen := 9; eip_fn_addr := 0 |}.

Fixpoint resolve_in (fns : list (Z * Z * string)) (addr : Z)
  : Z * Eipdebuginfo :=
  match fns with
  | [] => (-1, unknown_info)
  | (lo, hi, name) :: fns' =>
      if (lo <=? addr) && (addr <? hi) then
        (0, {| eip_file := "kern/init.c"; eip_line := (addr - lo) / 4 + 1;
               eip_fn_name := name;
               eip_fn_namelen := Z.of_nat (String.length name);
               eip_fn_addr := lo |})
      else resolve_in fns' addr
  end.

Definition debuginfo_eip (addr : Z) : Z * Eipdebuginfo :=
  resolve_in functions addr.

(** Modelled from the spec: [strtol] of [lib/string.c] is not among
    the sources.  It reads an integer in the usual literal syntax:
    an optional sign, then hexadecimal digits after a [0x] prefix,
    octal digits after a [0] prefix, decimal digits otherwise (or the
    digits of [base] when it is not zero). *)
Definition digit_of (c : ascii) : option Z :=
  let n := Z.of_nat (nat_of_ascii c) in
  if (48 <=? n) && (n <=? 57) then Some (n - 48)
  else if (97 <=? n) && (n <=? 122) then Some (n - 97 + 10)
  else if (65 <=? n) && (n <=? 90) then Some (n - 65 + 10)
  else None.

Fixpoint digits (base : Z) (s : string) (val : Z) : Z :=
  match s with
  | EmptyString => val
  | String c s' =>
      match digit_of c with
      | Some d => if d <? base then digits base s' (val * base + d)
                  else val
      | None => val
      end
  end.

Definition unsigned_literal (s : string) (base : Z) : Z :=
  match s with
  | String "0" (String "x" s') =>
      if (base =? 0) || (base =? 16) then digits 16 s' 0
      else digits base s 0
  | String "0" s' =>
      if base =? 0 then digits 8 s' 0 else digits base s 0
  | _ => digits (if base =? 0 then 10 else base) s 0
  end.

Definition strtol (s : string) (base : Z) : Z :=
  match s with
  | String "+" s' => unsigned_literal s' base
  | String "-" s' => - unsigned_literal s' base
  | _ => unsigned_literal s base
  end.

Definition Trapframe : Type := unit.

Definition backtrace (fuel : nat) (argc : Z) (argv : list string)
  (st : Machine Mem) : option (Z * Machine Mem) :=
  mon_backtrace mem_read debuginfo_eip (Trapframe := Trapframe)
    fuel argc argv None st.

Definition showmap (fuel : nat) (argc : Z) (argv : list string)
  (st : Machine Mem) : option (Z * Machine Mem) :=
  mon_showmap mem_read kern_pgdir pgdir_walk strtol
    (Trapframe := Trapframe) fuel argc argv None st.

(** A page directory whose entry 1 points to a page table at
    physical [0x111000]; that table maps the page at [0x400000] to
    the frame [0x100000], present, writable and user-accessible, and
    leaves the next page unmapped. *)
Definition paging : Mem :=
  [ (0xF0110004, 0x00111007);
    (0xF0111000, 0x00100007) ].

(** Three frames on the stack: the innermost was called from [A] at
    offset 10, [A] from [B] at offset 20, [B] from [entry]. *)
Definition stack3 : Mem :=
  [ (0xF010FF18, 0xF010FF58); (0xF010FF1C, 0xF010010A);
    (0xF010FF20, 1); (0xF010FF24, 2); (0xF010FF28, 3);
    (0xF010FF58, 0xF010FF98); (0xF010FF5C, 0xF0100214);
    (0xF010FF98, 0); (0xF010FF9C, 0xF0100040) ].

(** The same stack with the return address of the second frame
    outside every known function. *)
Definition stack_broken : Mem :=
  (0xF010FF5C, 0x00000BAD) :: stack3.

(** A frame whose saved frame pointer is its own address. *)
Definition stack_cyclic : Mem :=
  [ (0xF010FF18, 0xF010FF18); (0xF010FF1C, 0xF010010A) ].

Definition boot (ebp : Z) (m : Mem) : Machine Mem :=
  {| ebp_reg := ebp; mem := m; trace := [] |}.

Definition backtrace_ends (argc : Z) (argv : list string)
  (st : Machine Mem) (r : Z * Machine Mem) : Prop :=
  backtrace_returns mem_read debuginfo_eip (Trapframe := Trapframe)
    argc argv None st r.

Definition showmap_ends (argc : Z) (argv : list string)
  (st : Machine Mem) (r : Z * Machine Mem) : Prop :=
  showmap_returns mem_read kern_pgdir pgdir_walk strtol
    (Trapframe := Trapframe) argc argv None st r.

(** Command lines, as the interpreter splits them. *)
Definition argv_backtrace : list string := ["backtrace"%string].
Definition argv_no_address : list string := ["showmap"%string].
Definition argv_two_pages : list string :=
  ["showmap"; "0x00400000"; "2"]%string.
Definition argv_unaligned : list string :=
  ["showmap"; "0x00400abc"; "2"]%string.
Definition argv_last_page : list string :=
  ["showmap"; "0xfffff000"; "1"]%string.

(** Modelled from the spec: [ROUNDUP] of [inc/types.h] and
    [print_trapframe] of [kern/trap.c] are not among the sources;
    here [ROUNDUP a n] is [a] rounded up to a multiple of [n], and
    printing a trap frame is one call of [cprintf]. *)
Definition ROUNDUP (a n : Z) : Z := (a + n - 1) - (a + n - 1) mod n.

Definition print_trapframe (_ : Trapframe) (st : Machine Mem)
  : Machine Mem :=
  log (EvCprintf "TRAP frame" []) st.

Definition runcmd (fuel : nat) (line : string) (st : Machine Mem)
  : option (Z * Machine Mem) :=
  runcmd mem_read kern_pgdir pgdir_walk debuginfo_eip strtol
    0x0010000C 0xF010000C 0xF0101A00 0xF0112300 0xF0112960 KERNBASE ROUNDUP
    fuel (list_ascii_of_string line) (@None Trapframe) st.

Definition monitor (fuel : nat) (lines : list (option string))
  (tf : option Trapframe) (st : Machine Mem)
  : option (bool * Machine Mem) :=
  monitor mem_read kern_pgdir pgdir_walk debuginfo_eip strtol
    0x0010000C 0xF010000C 0xF0101A00 0xF0112300 0xF0112960 KERNBASE ROUNDUP
    print_trapframe fuel (map (option_map list_ascii_of_string) lines) tf st.

Definition tab : string := String "009" EmptyString.

(** A command line with whitespace of several kinds around its three
    words. *)
Definition line_spaced : string :=
  "  showmap" ++ tab ++ "0x00400000  2 ".

Definition argv_zero_pages : list string :=
  ["showmap"; "0x00400000"; "0"]%string.

(** What [readline] returns during a session: two commands, with a
    failed read between them. *)
Definition session : list (option string) :=
  [Some "help"; None; Some "showmap 0x00400000 2"]%string.

(** A line of fifteen words, and one of sixteen. *)
Definition line15 : string := "showmap 2 3 4 5 6 7 8 9 10 11 12 13 14 15".
Definition line16 : string := "showmap 2 3 4 5 6 7 8 9 10 11 12 13 14 15 16".

End Demo.

(** ** Words, bits and traces *)

Lemma wrap32_range (x : Z) : 0 <= wrap32 x < WORD.
Proof. unfold wrap32, WORD. apply Z.mod_pos_bound. reflexivity. Qed.

Lemma wrap32_small (x : Z) : 0 <= x < WORD -> wrap32 x = x.
Proof. unfold wrap32. apply Z.mod_small. Qed.

Lemma wrap32_idem (x : Z) : wrap32 (wrap32 x) = wrap32 x.
Proof. apply wrap32_small, wrap32_range. Qed.

Lemma ROUNDDOWN_page (a : Z) :
  0 <= a < WORD -> ROUNDDOWN a PGSIZE = PGSIZE * (a / PGSIZE).
Proof.
  intros Ha. unfold ROUNDDOWN.
  pose proof (Z.div_mod a PGSIZE ltac:(discriminate)) as Hdm.
  pose proof (Z.mod_pos_bound a PGSIZE eq_refl) as Hm.
  pose proof (Z.mod_le a PGSIZE ltac:(lia) eq_refl) as Hle.
  rewrite wrap32_small; lia.
Qed.

Lemma land_bit (e k : Z) :
  0 <= k -> Z.land e (2 ^ k) = if Z.testbit e k then 2 ^ k else 0.
Proof.
  intros Hk. apply Z.bits_inj'. intros n Hn.
  rewrite Z.land_spec, Z.pow2_bits_eqb by assumption.
  destruct (Z.eqb_spec k n) as [->|Hne].
  - destruct (Z.testbit e n); simpl.
    + rewrite Z.pow2_bits_eqb, Z.eqb_refl by assumption. reflexivity.
    + now rewrite Z.bits_0.
  - rewrite andb_false_r.
    destruct (Z.testbit e k).
    + rewrite Z.pow2_bits_eqb by assumption.
      symmetry. now apply Z.eqb_neq.
    + now rewrite Z.bits_0.
Qed.

Lemma notnot_land_bit (e k : Z) :
  0 <= k -> notnot (Z.land e (2 ^ k)) = Z.b2z (Z.testbit e k).
Proof.
  intros Hk. rewrite land_bit by assumption. unfold notnot.
  destruct (Z.testbit e k); simpl; [|reflexivity].
  destruct (Z.eqb_spec (2 ^ k) 0) as [H0|]; [|reflexivity].
  pose proof (Z.pow_pos_nonneg 2 k ltac:(lia) Hk). lia.
Qed.

Lemma present_bit (e : Z) : (Z.land e PTE_P =? 0) = negb (Z.testbit e 0).
Proof.
  change PTE_P with (2 ^ 0). rewrite land_bit by lia.
  now destruct (Z.testbit e 0).
Qed.

Lemma PTE_ADDR_frame (e : Z) : PTE_ADDR e = e - e mod PGSIZE.
Proof.
  unfold PTE_ADDR. change 4095 with (Z.ones 12).
  rewrite <- Z.ldiff_land, Z.ldiff_ones_r by lia.
  rewrite Z.shiftl_mul_pow2, Z.shiftr_div_pow2 by lia.
  change (2 ^ 12) with PGSIZE.
  pose proof (Z.div_mod e PGSIZE ltac:(discriminate)). lia.
Qed.

Lemma console_app (t1 t2 : list Event) :
  console (t1 ++ t2) = console t1 ++ console t2.
Proof.
  induction t1 as [|[] t1 IH]; simpl; rewrite ?IH; reflexivity.
Qed.

Lemma walks_app (t1 t2 : list Event) :
  walks (t1 ++ t2) = walks t1 ++ walks t2.
Proof.
  induction t1 as [|[] t1 IH]; simpl; rewrite ?IH; reflexivity.
Qed.

Lemma console_bytes_app (render : CprintfCall -> string)
  (c1 c2 : list CprintfCall) :
  console_bytes render (c1 ++ c2) =
  (console_bytes render c1 ++ console_bytes render c2)%string.
Proof.
  induction c1 as [|c c1 IH]; simpl; [reflexivity|].
  rewrite IH. clear IH.
  induction (render c) as [|a r IHr]; simpl; [reflexivity|now rewrite IHr].
Qed.

(** ** Runs of the two commands *)

Section MonitorFacts.

Variable Mem : Type.
Variable mem_read : Mem -> Z -> Z.
Variable kern_pgdir : Mem -> Z.
Variable pgdir_walk : Mem -> Z -> Z -> Z -> Z * Mem.
Variable debuginfo_eip : Z -> Z * Eipdebuginfo.
Variable strtol : string -> Z -> Z.
Variable Trapframe : Type.

Local Abbreviation body := (showmap_body mem_read kern_pgdir pgdir_walk).
Local Abbreviation loop := (showmap_loop mem_read kern_pgdir pgdir_walk).
Local Abbreviation showmap :=
  (mon_showmap mem_read kern_pgdir pgdir_walk strtol
     (Trapframe := Trapframe)).
Local Abbreviation returns :=
  (showmap_returns mem_read kern_pgdir pgdir_walk strtol
     (Trapframe := Trapframe)).
Local Abbreviation walk_reads_only := (walk_reads_only pgdir_walk).
Local Abbreviation row := (lookup_row mem_read kern_pgdir pgdir_walk).
Local Abbreviation after := (lookup_mem kern_pgdir pgdir_walk).
Local Abbreviation rows := (scan mem_read kern_pgdir pgdir_walk).

Lemma showmap_body_run (va : Z) (st : Machine Mem) :
  exists tr,
    body va st =
      Some (tt, {| ebp_reg := ebp_reg st; mem := after (mem st) va;
                   trace := trace st ++ tr |}) /\
    console tr = [row (mem st) va] /\
    walks tr = [(wrap32 (kern_pgdir (mem st)), va, 0)].
Proof.
  unfold showmap_body, lookup_row, lookup_entry, lookup_ptr, lookup_mem,
    bind, get_kern_pgdir, call_pgdir_walk, load32, cprintf, ret, log.
  simpl.
  destruct (pgdir_walk (mem st) (wrap32 (kern_pgdir (mem st))) va 0)
    as [p m'] eqn:Hw.
  simpl.
  destruct (wrap32 p =? 0) eqn:Hp; simpl.
  - rewrite <- !app_assoc. simpl. eexists. split; [reflexivity|].
    split; reflexivity.
  - destruct (Z.land (wrap32 (mem_read m' (wrap32 p))) PTE_P =? 0) eqn:He;
      simpl; rewrite <- !app_assoc; simpl;
      (eexists; split; [reflexivity|]; split; reflexivity).
Qed.

Lemma showmap_loop_done (fuel : nat) (va ve : Z) (st : Machine Mem) :
  ve <= va -> loop fuel va ve st = Some (tt, st).
Proof.
  intros Hle.
  destruct fuel; simpl; destruct (Z.ltb_spec va ve); try lia; reflexivity.
Qed.

Lemma showmap_loop_mono (fuel : nat) :
  forall va ve st r,
    loop fuel va ve st = Some r ->
    forall fuel', (fuel <= fuel')%nat -> loop fuel' va ve st = Some r.
Proof.
  induction fuel as [|fuel IH]; intros va ve st r Hrun fuel' Hle.
  - simpl in Hrun. destruct (Z.ltb_spec va ve) as [Hlt|Hge].
    + discriminate.
    + rewrite showmap_loop_done by lia. exact Hrun.
  - destruct fuel' as [|fuel']; [lia|].
    simpl in *. destruct (va <? ve); [|exact Hrun].
    unfold bind in *.
    destruct (body va st) as [[[] st1]|]; [|discriminate].
    apply IH with (fuel' := fuel') in Hrun; [exact Hrun|lia].
Qed.

Lemma showmap_loop_run (n : nat) :
  forall va st fuel,
    0 <= va ->
    va + Z.of_nat n * PGSIZE < WORD ->
    (n <= fuel)%nat ->
    exists tr,
      loop fuel va (va + Z.of_nat n * PGSIZE) st =
        Some (tt, {| ebp_reg := ebp_reg st;
                     mem := snd (rows n va (mem st));
                     trace := trace st ++ tr |}) /\
      console tr = fst (rows n va (mem st)) /\
      Forall (fun w => snd w = 0) (walks tr).
Proof.
  induction n as [|n IH]; intros va st fuel Hva Hend Hfuel.
  - exists []. rewrite showmap_loop_done by lia.
    destruct st. simpl. rewrite app_nil_r. repeat split. constructor.
  - destruct fuel as [|fuel]; [lia|].
    cbn [showmap_loop].
    destruct (Z.ltb_spec va (va + Z.of_nat (S n) * PGSIZE)) as [_|Hge];
      [|unfold PGSIZE in Hge; lia].
    unfold bind.
    destruct (showmap_body_run va st) as (tr1 & -> & Hc1 & Hw1).
    assert (Hstep : wrap32 (va + PGSIZE) = va + PGSIZE).
    { apply wrap32_small. unfold PGSIZE in *. lia. }
    rewrite Hstep.
    replace (va + Z.of_nat (S n) * PGSIZE)
      with (va + PGSIZE + Z.of_nat n * PGSIZE) in * by lia.
    edestruct (IH (va + PGSIZE)) as (tr2 & -> & Hc2 & Hw2);
      [unfold PGSIZE; lia|exact Hend|apply le_S_n, Hfuel|].
    cbn [ebp_reg mem trace scan fst snd].
    exists (tr1 ++ tr2). rewrite app_assoc. split; [reflexivity|].
    rewrite console_app, walks_app, Hc1, Hc2, Hw1. split; [reflexivity|].
    constructor; [reflexivity|exact Hw2].
Qed.

Lemma page_range_aligned (argc : Z) (argv : list string) :
  first_page strtol argv < end_page strtol argc argv ->
  end_page strtol argc argv =
    first_page strtol argv +
    Z.of_nat (pages_inspected strtol argc argv) * PGSIZE.
Proof.
  unfold pages_inspected, end_page, first_page.
  rewrite !ROUNDDOWN_page by apply wrap32_range.
  set (a := start_address strtol argv / PGSIZE).
  set (b := wrap32 _ / PGSIZE).
  intros Hlt.
  replace (PGSIZE * b - PGSIZE * a) with ((b - a) * PGSIZE) by ring.
  rewrite Z.div_mul by discriminate.
  unfold PGSIZE in *. lia.
Qed.

Lemma page_range_bounds (argc : Z) (argv : list string) :
  0 <= first_page strtol argv /\ end_page strtol argc argv < WORD.
Proof.
  unfold end_page, first_page, ROUNDDOWN.
  split; apply wrap32_range.
Qed.

Lemma mon_showmap_unfold (argc : Z) (argv : list string)
  (tf : option Trapframe) (st : Machine Mem) (fuel : nat) :
  2 <= argc ->
  showmap fuel argc argv tf st =
    match loop fuel (first_page strtol argv) (end_page strtol argc argv) st
    with
    | Some (_, st') => Some (0, st')
    | None => None
    end.
Proof.
  intros Hargc. unfold mon_showmap.
  destruct (Z.ltb_spec argc 2) as [|_]; [lia|]. reflexivity.
Qed.

(** Every invocation with an address argument finishes once it has
    fuel for the pages of its range, and prints their rows. *)
Lemma mon_showmap_run (argc : Z) (argv : list string)
  (tf : option Trapframe) (st : Machine Mem) (fuel : nat) :
  2 <= argc ->
  (pages_inspected strtol argc argv <= fuel)%nat ->
  exists tr,
    showmap fuel argc argv tf st =
      Some (0, {| ebp_reg := ebp_reg st;
                  mem := snd (rows (pages_inspected strtol argc argv)
                                (first_page strtol argv) (mem st));
                  trace := trace st ++ tr |}) /\
    console tr =
      fst (rows (pages_inspected strtol argc argv)
             (first_page strtol argv) (mem st)) /\
    Forall (fun w => snd w = 0) (walks tr).
Proof.
  intros Hargc Hfuel. rewrite mon_showmap_unfold by exact Hargc.
  destruct (page_range_bounds argc argv) as [Hlo Hhi].
  destruct (Z.lt_ge_cases (first_page strtol argv)
              (end_page strtol argc argv)) as [Hlt|Hge].
  - pose proof (page_range_aligned argc argv Hlt) as Hend.
    rewrite Hend in Hhi |- *.
    destruct (showmap_loop_run (pages_inspected strtol argc argv)
                (first_page strtol argv) st fuel Hlo Hhi Hfuel)
      as (tr & -> & Hc & Hw).
    exists tr. repeat split; assumption.
  - rewrite showmap_loop_done by exact Hge.
    assert (Hn : pages_inspected strtol argc argv = 0%nat).
    { unfold pages_inspected.
      assert ((end_page strtol argc argv - first_page strtol argv)
              / PGSIZE <= 0); [|lia].
      apply Z.div_le_upper_bound; [reflexivity|lia]. }
    rewrite Hn. exists []. destruct st. simpl. rewrite app_nil_r.
    repeat split. constructor.
Qed.

Lemma showmap_returns_functional (argc : Z) (argv : list string)
  (tf : option Trapframe) (st : Machine Mem) (r1 r2 : Z * Machine Mem) :
  returns argc argv tf st r1 -> returns argc argv tf st r2 -> r1 = r2.
Proof.
  intros [f1 H1] [f2 H2].
  destruct (Z.lt_ge_cases argc 2) as [Hlt|Hge].
  - unfold mon_showmap in H1, H2.
    destruct (Z.ltb_spec argc 2); [|lia]. congruence.
  - rewrite mon_showmap_unfold in H1, H2 by exact Hge.
    destruct (loop f1 _ _ st) as [[[] s1]|] eqn:E1; [|discriminate].
    destruct (loop f2 _ _ st) as [[[] s2]|] eqn:E2; [|discriminate].
    apply showmap_loop_mono with (fuel' := Nat.max f1 f2) in E1; [|lia].
    apply showmap_loop_mono with (fuel' := Nat.max f1 f2) in E2; [|lia].
    congruence.
Qed.

Lemma mon_showmap_usage (argc : Z) (argv : list string)
  (tf : option Trapframe) (st : Machine Mem) (fuel : nat) :
  argc < 2 ->
  showmap fuel argc argv tf st = Some (0, log (EvCprintf msg []) st).
Proof.
  intros Hargc. unfold mon_showmap.
  destruct (Z.ltb_spec argc 2); [reflexivity|lia].
Qed.

Lemma scan_length (n : nat) :
  forall va m, List.length (fst (rows n va m)) = n.
Proof. induction n as [|n IH]; intros va m; simpl; [|rewrite IH]; easy. Qed.

Lemma row_va_lookup (m : Mem) (va : Z) : row_va (row m va) = Some va.
Proof. unfold lookup_row. now destruct (_ || _). Qed.

(** The [k]-th row of a scan is the row of the [k]-th page in the
    memory left by the [k] lookups before it. *)
Lemma scan_nth (n : nat) :
  forall k va m,
    (k < n)%nat ->
    nth_error (fst (rows n va m)) k =
      Some (row (snd (rows k va m)) (va + Z.of_nat k * PGSIZE)).
Proof.
  induction n as [|n IH]; intros k va m Hk; [lia|].
  destruct k as [|k]; cbn [scan fst snd nth_error].
  - do 2 f_equal. lia.
  - rewrite IH by lia. do 2 f_equal. lia.
Qed.

Lemma scan_reads_only :
  walk_reads_only -> forall n va m, snd (rows n va m) = m.
Proof.
  intros Hro n. induction n as [|n IH]; intros va m; simpl; [reflexivity|].
  rewrite IH. apply Hro.
Qed.

(** The rows depend on the memory alone, and each carries the address
    of its page. *)
Lemma scan_vas (n k : nat) (va : Z) (m : Mem) :
  (k < n)%nat ->
  nth_error (map row_va (fst (rows n va m))) k =
    Some (Some (va + Z.of_nat k * PGSIZE)).
Proof.
  intros Hk. rewrite nth_error_map, scan_nth by exact Hk.
  simpl. now rewrite row_va_lookup.
Qed.

(** Without wrap-around the range has as many pages as were asked
    for, whatever the page offset of the start address. *)
Lemma pages_inspected_nowrap (argc : Z) (argv : list string) :
  0 < page_count strtol argc argv ->
  start_address strtol argv + page_count strtol argc argv * PGSIZE < WORD ->
  pages_inspected strtol argc argv = Z.to_nat (page_count strtol argc argv).
Proof.
  intros Hpos Hfit.
  assert (Hs : 0 <= start_address strtol argv < WORD)
    by apply wrap32_range.
  unfold pages_inspected, end_page, first_page.
  set (a := start_address strtol argv) in *.
  set (c := page_count strtol argc argv) in *.
  assert (Hc : wrap32 (c * PGSIZE) = c * PGSIZE).
  { apply wrap32_small. unfold PGSIZE in *. lia. }
  rewrite Hc, (wrap32_small (a + c * PGSIZE)) by (unfold PGSIZE in *; lia).
  rewrite !ROUNDDOWN_page by (unfold PGSIZE in *; lia).
  rewrite Z.div_add by discriminate.
  replace (PGSIZE * (a / PGSIZE + c) - PGSIZE * (a / PGSIZE))
    with (c * PGSIZE) by ring.
  now rewrite Z.div_mul by discriminate.
Qed.

Lemma first_page_aligned (argv : list string) :
  start_address strtol argv mod PGSIZE = 0 ->
  first_page strtol argv = start_address strtol argv.
Proof.
  intros Hal. unfold first_page, ROUNDDOWN.
  rewrite Hal, Z.sub_0_r. apply wrap32_idem.
Qed.

(** ** Properties of the mapping inspector *)

(** A report row is the mapped row or the no-mapping row of its
    page. *)
Lemma lookup_row_shape (m : Mem) (va : Z) :
  (exists pa u w,
     row m va = (fmt_mapped, [ArgInt va; ArgInt pa; ArgInt u; ArgInt w])) \/
  row m va = (fmt_nomap, [ArgInt va]).
Proof.
  unfold lookup_row. destruct (_ || _); [now right|].
  left. eexists. eexists. eexists. reflexivity.
Qed.

(** The common part of the two range properties: without wrap-around
    the run ends with status 0 and adds one row per requested page,
    the [k]-th being the row the lookup of the page [k] pages after
    the rounded start gives. *)
Lemma showmap_rows_nowrap (argc : Z) (argv : list string)
  (tf : option Trapframe) (st : Machine Mem) :
  2 <= argc ->
  0 < page_count strtol argc argv ->
  start_address strtol argv + page_count strtol argc argv * PGSIZE < WORD ->
  exists st' report,
    returns argc argv tf st (0, st') /\
    console (trace st') = console (trace st) ++ report /\
    report =
      fst (rows (Z.to_nat (page_count strtol argc argv))
             (first_page strtol argv) (mem st)) /\
    List.length report = Z.to_nat (page_count strtol argc argv) /\
    forall k : nat,
      (k < Z.to_nat (page_count strtol argc argv))%nat ->
      nth_error (map row_va report) k =
        Some (Some (first_page strtol argv + Z.of_nat k * PGSIZE)) /\
      ((exists pa u w,
          nth_error report k =
            Some (fmt_mapped,
                  [ArgInt (first_page strtol argv + Z.of_nat k * PGSIZE);
                   ArgInt pa; ArgInt u; ArgInt w])) \/
       nth_error report k =
         Some (fmt_nomap,
               [ArgInt (first_page strtol argv + Z.of_nat k * PGSIZE)])).
Proof.
  intros Hargc Hpos Hfit.
  pose proof (pages_inspected_nowrap argc argv Hpos Hfit) as Hn.
  destruct (mon_showmap_run argc argv tf st
              (pages_inspected strtol argc argv) Hargc (le_n _))
    as (tr & Hrun & Hc & _).
  eexists. exists (console tr). split; [eexists; exact Hrun|].
  cbn [trace]. rewrite console_app, Hc, <- Hn. split; [reflexivity|].
  split; [reflexivity|]. split; [apply scan_length|].
  intros k Hk. split; [now apply scan_vas|].
  rewrite scan_nth by exact Hk.
  destruct (lookup_row_shape
              (snd (rows k (first_page strtol argv) (mem st)))
              (first_page strtol argv + Z.of_nat k * PGSIZE))
    as [(pa & u & w & Hrow)|Hrow]; rewrite Hrow.
  - left. now exists pa, u, w.
  - now right.
Qed.

(** C1 (as amended): for every page-aligned start address and every
    positive page count whose range [start + count * PGSIZE] stays
    below 2^32, [mon_showmap] returns 0 after printing exactly [count]
    report rows: the rows the lookups of the pages from the start
    address give, the [k]-th being the mapped row or the no-mapping
    row of the virtual address [start + k * PGSIZE], in ascending
    order. *)
Theorem showmap_aligned_rows (argc : Z) (argv : list string)
  (tf : option Trapframe) (st : Machine Mem) :
  2 <= argc ->
  start_address strtol argv mod PGSIZE = 0 ->
  0 < page_count strtol argc argv ->
  start_address strtol argv + page_count strtol argc argv * PGSIZE < WORD ->
  exists st' report,
    returns argc argv tf st (0, st') /\
    console (trace st') = console (trace st) ++ report /\
    report =
      fst (rows (Z.to_nat (page_count strtol argc argv))
             (start_address strtol argv) (mem st)) /\
    List.length report = Z.to_nat (page_count strtol argc argv) /\
    forall k : nat,
      (k < Z.to_nat (page_count strtol argc argv))%nat ->
      nth_error (map row_va report) k =
        Some (Some (start_address strtol argv + Z.of_nat k * PGSIZE)) /\
      ((exists pa u w,
          nth_error report k =
            Some (fmt_mapped,
                  [ArgInt (start_address strtol argv + Z.of_nat k * PGSIZE);
                   ArgInt pa; ArgInt u; ArgInt w])) \/
       nth_error report k =
         Some (fmt_nomap,
               [ArgInt (start_address strtol argv + Z.of_nat k * PGSIZE)])).
Proof.
  intros Hargc Hal Hpos Hfit.
  rewrite <- (first_page_aligned argv Hal).
  now apply showmap_rows_nowrap.
Qed.

(** C10: for every start address, page-aligned or not, and every
    positive page count such that [start + count * PGSIZE] does not
    wrap around 2^32, [mon_showmap] returns 0 after printing exactly
    [count] report rows: the rows the lookups of the pages from
    [ROUNDDOWN start PGSIZE] give, the first being the mapped row or
    the no-mapping row of [ROUNDDOWN start PGSIZE] and the [k]-th that
    of the page [k] pages after it. *)
Theorem showmap_unaligned_rows (argc : Z) (argv : list string)
  (tf : option Trapframe) (st : Machine Mem) :
  2 <= argc ->
  0 < page_count strtol argc argv ->
  start_address strtol argv + page_count strtol argc argv * PGSIZE < WORD ->
  exists st' report,
    returns argc argv tf st (0, st') /\
    console (trace st') = console (trace st) ++ report /\
    report =
      fst (rows (Z.to_nat (page_count strtol argc argv))
             (ROUNDDOWN (start_address strtol argv) PGSIZE) (mem st)) /\
    List.length report = Z.to_nat (page_count strtol argc argv) /\
    forall k : nat,
      (k < Z.to_nat (page_count strtol argc argv))%nat ->
      nth_error (map row_va report) k =
        Some (Some (ROUNDDOWN (start_address strtol argv) PGSIZE + Z.of_nat k * PGSIZE)) /\
      ((exists pa u w,
          nth_error report k =
            Some (fmt_mapped,
                  [ArgInt (ROUNDDOWN (start_address strtol argv) PGSIZE + Z.of_nat k * PGSIZE);
                   ArgInt pa; ArgInt u; ArgInt w])) \/
       nth_error report k =
         Some (fmt_nomap,
               [ArgInt (ROUNDDOWN (start_address strtol argv) PGSIZE + Z.of_nat k * PGSIZE)])).
Proof. exact (showmap_rows_nowrap argc argv tf st). Qed.

(** C4: in every run with an address argument, the row of each
    inspected page is decided by the lookup of that page (made in the
    memory the lookups before it left): when the walker returns no
    entry, or an entry whose present bit (bit 0) is clear, the row is
    the no-mapping row of the page; when the entry is present, the row
    reports the entry with its twelve page-offset bits cleared as
    physical address, bit 2 of the entry as U-bit and bit 1 as
    W-bit. *)
Theorem showmap_row_contents (argc : Z) (argv : list string)
  (tf : option Trapframe) (st : Machine Mem) :
  2 <= argc ->
  exists st' report,
    returns argc argv tf st (0, st') /\
    console (trace st') = console (trace st) ++ report /\
    List.length report = pages_inspected strtol argc argv /\
    forall k : nat,
      (k < pages_inspected strtol argc argv)%nat ->
      let va := first_page strtol argv + Z.of_nat k * PGSIZE in
      let m := snd (rows k (first_page strtol argv) (mem st)) in
      let pte := lookup_ptr kern_pgdir pgdir_walk m va in
      let entry := lookup_entry mem_read kern_pgdir pgdir_walk m va in
      (pte = 0 \/ Z.testbit entry 0 = false ->
       nth_error report k = Some (fmt_nomap, [ArgInt va])) /\
      (pte <> 0 -> Z.testbit entry 0 = true ->
       nth_error report k =
         Some (fmt_mapped,
               [ArgInt va; ArgInt (entry - entry mod PGSIZE);
                ArgInt (Z.b2z (Z.testbit entry 2));
                ArgInt (Z.b2z (Z.testbit entry 1))])).
Proof.
  intros Hargc.
  destruct (mon_showmap_run argc argv tf st
              (pages_inspected strtol argc argv) Hargc (le_n _))
    as (tr & Hrun & Hc & _).
  eexists. exists (console tr). split; [eexists; exact Hrun|].
  cbn [trace]. rewrite console_app, Hc. split; [reflexivity|].
  split; [apply scan_length|].
  intros k Hk. rewrite scan_nth by exact Hk.
  unfold lookup_row.
  set (entry := lookup_entry _ _ _ _ _). set (pte := lookup_ptr _ _ _ _).
  rewrite present_bit. split.
  - intros [Hnull|Hbit].
    + rewrite Hnull. reflexivity.
    + rewrite Hbit, orb_true_r. reflexivity.
  - intros Hptr Hbit. apply Z.eqb_neq in Hptr. rewrite Hptr, Hbit. simpl.
    rewrite PTE_ADDR_frame.
    change PTE_U with (2 ^ 2). change PTE_W with (2 ^ 1).
    now rewrite !notnot_land_bit by lia.
Qed.

(** C6: with fewer than two arguments [mon_showmap] prints the usage
    message and returns 0; the message is the only thing it does, so
    no page is looked up and memory is as before. *)
Theorem showmap_usage_on_missing_address (argc : Z) (argv : list string)
  (tf : option Trapframe) (st : Machine Mem) (fuel : nat) :
  argc < 2 ->
  exists st',
    showmap fuel argc argv tf st = Some (0, st') /\
    trace st' = trace st ++ [EvCprintf msg []] /\
    walks (trace st') = walks (trace st) /\
    mem st' = mem st.
Proof.
  intros Hargc. rewrite mon_showmap_usage by exact Hargc.
  eexists. split; [reflexivity|]. cbn [log trace mem].
  rewrite walks_app, app_nil_r. repeat split.
Qed.

(** C7: every invocation of [mon_showmap] returns, every call it
    makes to [pgdir_walk] has 0 as its [create] argument, and
    therefore, the walker leaving memory alone in that mode, the
    memory (page tables included) after the command is the memory
    before it. *)
Theorem showmap_never_creates (argc : Z) (argv : list string)
  (tf : option Trapframe) (st : Machine Mem) :
  exists st' tr,
    returns argc argv tf st (0, st') /\
    trace st' = trace st ++ tr /\
    Forall (fun w => snd w = 0) (walks tr) /\
    (walk_reads_only -> mem st' = mem st).
Proof.
  destruct (Z.lt_ge_cases argc 2) as [Hlt|Hge].
  - exists (log (EvCprintf msg []) st), [EvCprintf msg []].
    split; [exists O; now apply mon_showmap_usage|].
    repeat split. constructor.
  - destruct (mon_showmap_run argc argv tf st
                (pages_inspected strtol argc argv) Hge (le_n _))
      as (tr & Hrun & _ & Hw).
    eexists. exists tr. split; [eexists; exact Hrun|].
    cbn [trace mem]. repeat split; [exact Hw|].
    intros Hro. now apply scan_reads_only.
Qed.

(** C9: two invocations of [mon_showmap] with the same arguments, on
    machines with the same memory, both return 0 and add the same
    calls of [cprintf] to the console: the same bytes, whatever the
    formatter. *)
Theorem showmap_report_repeatable (argc : Z) (argv : list string)
  (tf : option Trapframe) (st1 st2 : Machine Mem) :
  mem st1 = mem st2 ->
  exists st1' st2' report,
    returns argc argv tf st1 (0, st1') /\
    returns argc argv tf st2 (0, st2') /\
    console (trace st1') = console (trace st1) ++ report /\
    console (trace st2') = console (trace st2) ++ report /\
    forall render : CprintfCall -> string,
      console_bytes render (console (trace st1')) =
        (console_bytes render (console (trace st1)) ++
         console_bytes render report)%string /\
      console_bytes render (console (trace st2')) =
        (console_bytes render (console (trace st2)) ++
         console_bytes render report)%string.
Proof.
  intros Hmem.
  destruct (Z.lt_ge_cases argc 2) as [Hlt|Hge].
  - exists (log (EvCprintf msg []) st1), (log (EvCprintf msg []) st2),
      [(msg, [])].
    split; [exists O; now apply mon_showmap_usage|].
    split; [exists O; now apply mon_showmap_usage|].
    cbn [log trace]. rewrite !console_app. simpl.
    repeat split; apply console_bytes_app.
  - destruct (mon_showmap_run argc argv tf st1
                (pages_inspected strtol argc argv) Hge (le_n _))
      as (tr1 & Hrun1 & Hc1 & _).
    destruct (mon_showmap_run argc argv tf st2
                (pages_inspected strtol argc argv) Hge (le_n _))
      as (tr2 & Hrun2 & Hc2 & _).
    rewrite <- Hmem in Hc2.
    eexists. eexists. exists (console tr1).
    split; [eexists; exact Hrun1|]. split; [eexists; exact Hrun2|].
    cbn [trace]. rewrite !console_app, Hc2, <- Hc1.
    repeat split; apply console_bytes_app.
Qed.

(** ** Runs of the unwinder *)

Local Abbreviation unwind := (backtrace_loop mem_read debuginfo_eip).
Local Abbreviation backtrace :=
  (mon_backtrace mem_read debuginfo_eip (Trapframe := Trapframe)).
Local Abbreviation bt_returns :=
  (backtrace_returns mem_read debuginfo_eip (Trapframe := Trapframe)).
Local Abbreviation entry_of := (frame_entry mem_read debuginfo_eip).
Local Abbreviation resolves := (resolvable mem_read debuginfo_eip).

Lemma idx_0 (p : Z) : 0 <= p < WORD -> idx p 0 = p.
Proof. intros Hp. unfold idx. rewrite Z.add_0_r. now apply wrap32_small. Qed.

Lemma slot_range (m : Mem) (fp i : Z) : 0 <= slot mem_read m fp i < WORD.
Proof. apply wrap32_range. Qed.

(** One turn of the loop body prints the entry of the frame and moves
    to the frame pointer saved in it. *)
Lemma backtrace_body_run (ebp : Z) (st : Machine Mem) :
  0 <= ebp < WORD ->
  exists tr,
    backtrace_body mem_read ebp ebp
      (snd (debuginfo_eip (slot mem_read (mem st) ebp 1))) st =
      Some (slot mem_read (mem st) ebp 0,
            {| ebp_reg := ebp_reg st; mem := mem st;
               trace := trace st ++ tr |}) /\
    console tr = entry_of (mem st) ebp.
Proof.
  intros Hebp.
  unfold backtrace_body, bind, load32, cprintf, log, slot. simpl.
  rewrite <- !app_assoc. simpl.
  rewrite (idx_0 ebp Hebp).
  eexists. split; reflexivity.
Qed.

Lemma backtrace_loop_zero (fuel : nat) (st : Machine Mem) :
  unwind fuel 0 0 st = Some (tt, st).
Proof. destruct fuel; reflexivity. Qed.

Lemma backtrace_loop_unresolved (fuel : nat) (ebp : Z) (st : Machine Mem) :
  ebp <> 0 ->
  resolves (mem st) ebp = false ->
  unwind fuel ebp ebp st =
    Some (tt, log (EvResolve (slot mem_read (mem st) ebp 1))
                (log (EvLoad (idx ebp 1)) st)).
Proof.
  intros Hnz Hres. apply Z.eqb_neq in Hnz.
  unfold resolvable, slot in Hres.
  destruct fuel; simpl; rewrite Hnz;
    unfold bind, load32, call_debuginfo_eip; simpl; rewrite Hres;
    reflexivity.
Qed.

Lemma backtrace_loop_step (fuel : nat) (ebp : Z) (st : Machine Mem) :
  0 <= ebp < WORD ->
  ebp <> 0 ->
  resolves (mem st) ebp = true ->
  exists tr,
    console tr = entry_of (mem st) ebp /\
    unwind (S fuel) ebp ebp st =
      unwind fuel (slot mem_read (mem st) ebp 0)
        (slot mem_read (mem st) ebp 0)
        {| ebp_reg := ebp_reg st; mem := mem st; trace := trace st ++ tr |}.
Proof.
  intros Hebp Hnz Hres. apply Z.eqb_neq in Hnz.
  unfold resolvable, slot in Hres.
  destruct (backtrace_body_run ebp
              (log (EvResolve (slot mem_read (mem st) ebp 1))
                 (log (EvLoad (idx ebp 1)) st)) Hebp)
    as (tr & Hbody & Hc).
  cbn [log mem ebp_reg trace] in Hbody, Hc.
  exists ([EvLoad (idx ebp 1); EvResolve (slot mem_read (mem st) ebp 1)]
          ++ tr).
  split; [rewrite console_app; exact Hc|].
  cbn [backtrace_loop]. rewrite Hnz.
  unfold bind at 1. unfold load32 at 1.
  unfold bind at 1. unfold call_debuginfo_eip at 1.
  cbn [fst snd]. rewrite Hres.
  unfold bind at 1.
  change (wrap32 (mem_read (mem st) (idx ebp 1)))
    with (slot mem_read (mem st) ebp 1).
  rewrite Hbody, <- !app_assoc. reflexivity.
Qed.

Lemma backtrace_loop_mono (fuel : nat) :
  forall ebp st r,
    unwind fuel ebp ebp st = Some r ->
    forall fuel', (fuel <= fuel')%nat -> unwind fuel' ebp ebp st = Some r.
Proof.
  induction fuel as [|fuel IH]; intros ebp st r Hrun fuel' Hle.
  - destruct fuel' as [|fuel']; [exact Hrun|].
    cbn [backtrace_loop] in *. destruct (ebp =? 0); [exact Hrun|].
    unfold bind, load32, call_debuginfo_eip in *. cbn [fst snd] in *.
    destruct (fst (debuginfo_eip _) =? 0); [discriminate|exact Hrun].
  - destruct fuel' as [|fuel']; [lia|].
    cbn [backtrace_loop] in *. destruct (ebp =? 0); [exact Hrun|].
    unfold bind at 1 2 in Hrun. unfold bind at 1 2.
    unfold load32 at 1 in Hrun. unfold load32 at 1.
    unfold call_debuginfo_eip at 1 in Hrun.
    unfold call_debuginfo_eip at 1.
    cbn [fst snd] in *.
    destruct (fst (debuginfo_eip _) =? 0); [|exact Hrun].
    unfold bind at 1 in Hrun. unfold bind at 1.
    destruct (backtrace_body _ _ _ _ _) as [[ebp' st']|]; [|discriminate].
    apply IH with (fuel' := fuel') in Hrun; [exact Hrun|lia].
Qed.

(** The loop walks a path of resolvable frames that ends at zero or at
    a frame whose return address does not resolve, printing the entry
    of each frame of the path, in order, and nothing else. *)
Lemma backtrace_loop_run (fps : list Z) :
  forall ebp stop st fuel,
    0 <= ebp < WORD ->
    frame_path mem_read (mem st) ebp fps stop = true ->
    forallb (resolves (mem st)) fps = true ->
    stop = 0 \/ resolves (mem st) stop = false ->
    (List.length fps <= fuel)%nat ->
    exists tr,
      unwind fuel ebp ebp st =
        Some (tt, {| ebp_reg := ebp_reg st; mem := mem st;
                     trace := trace st ++ tr |}) /\
      console tr = flat_map (entry_of (mem st)) fps.
Proof.
  induction fps as [|fp fps IH]; intros ebp stop st fuel Hebp Hpath Hres
    Hstop Hfuel.
  - simpl in Hpath. apply Z.eqb_eq in Hpath. subst stop.
    destruct (Z.eq_dec ebp 0) as [->|Hnz].
    + exists []. rewrite backtrace_loop_zero. destruct st; simpl.
      now rewrite app_nil_r.
    + destruct Hstop as [|Hbad]; [contradiction|].
      rewrite backtrace_loop_unresolved by assumption.
      eexists. unfold log. cbn [ebp_reg mem trace].
      rewrite <- app_assoc. split; reflexivity.
  - cbn [frame_path forallb] in Hpath, Hres.
    apply andb_prop in Hpath as [Hhead Hpath].
    apply andb_prop in Hhead as [Heq Hnz].
    apply andb_prop in Hres as [Hres1 Hres].
    apply Z.eqb_eq in Heq. subst fp.
    apply negb_true_iff, Z.eqb_neq in Hnz.
    destruct fuel as [|fuel]; [simpl in Hfuel; lia|].
    destruct (backtrace_loop_step fuel ebp st Hebp Hnz Hres1)
      as (tr1 & Hc1 & ->).
    edestruct (IH (slot mem_read (mem st) ebp 0) stop
                 {| ebp_reg := ebp_reg st; mem := mem st;
                    trace := trace st ++ tr1 |} fuel)
      as (tr2 & -> & Hc2);
      [apply slot_range|exact Hpath|exact Hres|exact Hstop
      |simpl in Hfuel; lia|].
    cbn [ebp_reg mem trace] in *.
    exists (tr1 ++ tr2). rewrite app_assoc. split; [reflexivity|].
    rewrite console_app, Hc1, Hc2. reflexivity.
Qed.

(** A frame that saves its own address and resolves is walked for
    ever. *)
Lemma backtrace_loop_cycle (fuel : nat) :
  forall ebp st,
    0 <= ebp < WORD ->
    ebp <> 0 ->
    resolves (mem st) ebp = true ->
    slot mem_read (mem st) ebp 0 = ebp ->
    unwind fuel ebp ebp st = None.
Proof.
  induction fuel as [|fuel IH]; intros ebp st Hebp Hnz Hres Hself.
  - apply Z.eqb_neq in Hnz. unfold resolvable, slot in Hres.
    simpl. rewrite Hnz.
    unfold bind, load32, call_debuginfo_eip. simpl. now rewrite Hres.
  - destruct (backtrace_loop_step fuel ebp st Hebp Hnz Hres)
      as (tr & _ & ->).
    rewrite Hself. now apply IH.
Qed.

Lemma mon_backtrace_unfold (fuel : nat) (argc : Z) (argv : list string)
  (tf : option Trapframe) (st : Machine Mem) :
  backtrace fuel argc argv tf st =
    match unwind fuel (wrap32 (ebp_reg st)) (wrap32 (ebp_reg st))
            (log (EvCprintf fmt_backtrace_header []) st)
    with
    | Some (_, st') => Some (0, st')
    | None => None
    end.
Proof. reflexivity. Qed.

Lemma backtrace_returns_functional (argc : Z) (argv : list string)
  (tf : option Trapframe) (st : Machine Mem) (r1 r2 : Z * Machine Mem) :
  bt_returns argc argv tf st r1 -> bt_returns argc argv tf st r2 -> r1 = r2.
Proof.
  intros [f1 H1] [f2 H2]. rewrite mon_backtrace_unfold in H1, H2.
  destruct (unwind f1 _ _ _) as [[[] s1]|] eqn:E1; [|discriminate].
  destruct (unwind f2 _ _ _) as [[[] s2]|] eqn:E2; [|discriminate].
  apply backtrace_loop_mono with (fuel' := Nat.max f1 f2) in E1; [|lia].
  apply backtrace_loop_mono with (fuel' := Nat.max f1 f2) in E2; [|lia].
  congruence.
Qed.

(** The whole command on a path that ends. *)
Lemma mon_backtrace_run (argc : Z) (argv : list string)
  (tf : option Trapframe) (st : Machine Mem) (fps : list Z) (stop : Z) :
  frame_path mem_read (mem st) (wrap32 (ebp_reg st)) fps stop = true ->
  forallb (resolves (mem st)) fps = true ->
  stop = 0 \/ resolves (mem st) stop = false ->
  exists st',
    bt_returns argc argv tf st (0, st') /\
    mem st' = mem st /\
    console (trace st') =
      console (trace st) ++
      (fmt_backtrace_header, []) :: flat_map (entry_of (mem st)) fps.
Proof.
  intros Hpath Hres Hstop.
  destruct (backtrace_loop_run fps (wrap32 (ebp_reg st)) stop
              (log (EvCprintf fmt_backtrace_header []) st)
              (List.length fps) (wrap32_range _) Hpath Hres Hstop (le_n _))
    as (tr & Hrun & Hc).
  eexists. split.
  - exists (List.length fps). rewrite mon_backtrace_unfold, Hrun.
    reflexivity.
  - cbn [log mem trace]. split; [reflexivity|].
    rewrite !console_app, Hc. simpl. now rewrite <- app_assoc.
Qed.

(** ** Properties of the unwinder *)

(** C2: on a chain of [n] frames whose last saved frame pointer is
    zero and whose return addresses all resolve, [mon_backtrace]
    returns 0 after printing, below its header, exactly [n] entries:
    the entry of each frame of the chain, starting with the frame the
    frame-pointer register points to and following the saved frame
    pointers. *)
Theorem backtrace_full_chain (argc : Z) (argv : list string)
  (tf : option Trapframe) (st : Machine Mem) (fps : list Z) :
  frame_chain mem_read (mem st) (wrap32 (ebp_reg st)) fps = true ->
  forallb (resolves (mem st)) fps = true ->
  exists st' entries,
    bt_returns argc argv tf st (0, st') /\
    console (trace st') =
      console (trace st) ++ (fmt_backtrace_header, []) :: List.concat entries /\
    List.length entries = List.length fps /\
    entries = map (entry_of (mem st)) fps.
Proof.
  intros Hchain Hres.
  destruct (mon_backtrace_run argc argv tf st fps 0 Hchain Hres
              (or_introl eq_refl)) as (st' & Hrun & _ & Hc).
  exists st', (map (entry_of (mem st)) fps).
  split; [exact Hrun|]. rewrite <- flat_map_concat_map.
  split; [exact Hc|]. split; [apply length_map|reflexivity].
Qed.

(** C3: when the walk reaches a frame whose return address does not
    resolve, [mon_backtrace] still returns 0, and what it printed
    below its header is the entries of the frames before that one and
    nothing for the failing frame. *)
Theorem backtrace_stops_at_unresolved (argc : Z) (argv : list string)
  (tf : option Trapframe) (st : Machine Mem) (resolved : list Z)
  (failing : Z) :
  frame_path mem_read (mem st) (wrap32 (ebp_reg st)) resolved failing
    = true ->
  forallb (resolves (mem st)) resolved = true ->
  failing <> 0 ->
  resolves (mem st) failing = false ->
  exists st' entries,
    bt_returns argc argv tf st (0, st') /\
    console (trace st') =
      console (trace st) ++ (fmt_backtrace_header, []) :: List.concat entries /\
    List.length entries = List.length resolved /\
    entries = map (entry_of (mem st)) resolved.
Proof.
  intros Hpath Hres _ Hfail.
  destruct (mon_backtrace_run argc argv tf st resolved failing Hpath Hres
              (or_intror Hfail)) as (st' & Hrun & _ & Hc).
  exists st', (map (entry_of (mem st)) resolved).
  split; [exact Hrun|]. rewrite <- flat_map_concat_map.
  split; [exact Hc|]. split; [apply length_map|reflexivity].
Qed.

(** C5: when the frame-pointer register holds zero, [mon_backtrace]
    returns 0 and the one thing it does is print its header: no frame
    entry is printed, no word of memory is loaded and the resolver is
    not called. *)
Theorem backtrace_zero_frame_pointer (fuel : nat) (argc : Z)
  (argv : list string) (tf : option Trapframe) (st : Machine Mem) :
  ebp_reg st = 0 ->
  exists st',
    backtrace fuel argc argv tf st = Some (0, st') /\
    trace st' = trace st ++ [EvCprintf fmt_backtrace_header []] /\
    mem st' = mem st.
Proof.
  intros Hzero. rewrite mon_backtrace_unfold, Hzero.
  change (wrap32 0) with 0. rewrite backtrace_loop_zero.
  eexists. split; [reflexivity|]. split; reflexivity.
Qed.

(** ** The status of the two commands *)

(** C8 (as amended): [mon_showmap] returns on every invocation, and
    with status 0; [mon_backtrace] returns, with status 0, whenever
    its walk ends (at a zero frame pointer or at a return address
    that does not resolve); and no run of either command returns a
    status other than 0. *)
Theorem commands_return_zero :
  (forall argc argv tf st, exists st', returns argc argv tf st (0, st')) /\
  (forall argc argv tf st status st',
     returns argc argv tf st (status, st') -> status = 0) /\
  (forall argc argv tf st fps stop,
     frame_path mem_read (mem st) (wrap32 (ebp_reg st)) fps stop = true ->
     forallb (resolves (mem st)) fps = true ->
     stop = 0 \/ resolves (mem st) stop = false ->
     exists st', bt_returns argc argv tf st (0, st')) /\
  (forall argc argv tf st status st',
     bt_returns argc argv tf st (status, st') -> status = 0).
Proof.
  assert (Htotal : forall argc argv tf st,
             exists st', returns argc argv tf st (0, st')).
  { intros argc argv tf st.
    destruct (Z.lt_ge_cases argc 2) as [Hlt|Hge].
    - eexists. exists O. now apply mon_showmap_usage.
    - destruct (mon_showmap_run argc argv tf st
                  (pages_inspected strtol argc argv) Hge (le_n _))
        as (tr & Hrun & _).
      eexists. eexists. exact Hrun. }
  split; [exact Htotal|]. split; [|split].
  - intros argc argv tf st status st' Hret.
    destruct (Htotal argc argv tf st) as [st0 H0].
    pose proof (showmap_returns_functional _ _ _ _ _ _ Hret H0) as Heq.
    now inversion Heq.
  - intros argc argv tf st fps stop Hpath Hres Hstop.
    destruct (mon_backtrace_run argc argv tf st fps stop Hpath Hres Hstop)
      as (st' & Hrun & _).
    now exists st'.
  - intros argc argv tf st status st' [fuel Hrun].
    rewrite mon_backtrace_unfold in Hrun.
    destruct (unwind fuel _ _ _) as [[[] s]|]; [|discriminate].
    now inversion Hrun.
Qed.

End MonitorFacts.

(** ** The commands on the concrete machine *)

(** The two scenarios of the specification. *)
Example showmap_two_pages :
  option_map (fun r => (fst r, console (trace (snd r))))
    (Demo.showmap 2 3 Demo.argv_two_pages
       (Demo.boot 0 Demo.paging)) =
  Some (0, [ (fmt_mapped,
              [ArgInt 0x00400000; ArgInt 0x00100000; ArgInt 1; ArgInt 1]);
             (fmt_nomap, [ArgInt 0x00401000]) ]).
Proof. vm_compute. reflexivity. Qed.

Example backtrace_three_frames :
  option_map
    (fun r => (fst r, map (fun c => nth 3 (snd c) (ArgInt 0))
                        (console (trace (snd r)))))
    (Demo.backtrace 3 1 Demo.argv_backtrace
       (Demo.boot 0xF010FF18 Demo.stack3)) =
  Some (0, [ ArgInt 0;
             ArgInt 2; ArgStr "A";
             ArgInt 0; ArgStr "B";
             ArgInt 0; ArgStr "entry" ]).
Proof. vm_compute. reflexivity. Qed.

Lemma demo_walk_reads_only :
  walk_reads_only Demo.pgdir_walk.
Proof.
  intros m pgdir va. unfold Demo.pgdir_walk.
  destruct (negb _); reflexivity.
Defined.

(** C1, at the last page of the address space: the start address
    [0xfffff000] is page-aligned and one page is asked for, yet the
    end address wraps to zero and no run prints one row. *)
Lemma showmap_last_page_no_rows :
  start_address Demo.strtol Demo.argv_last_page mod PGSIZE = 0 /\
  page_count Demo.strtol 3 Demo.argv_last_page = 1 /\
  ~ (exists st' report,
       Demo.showmap_ends 3 Demo.argv_last_page
         (Demo.boot 0 Demo.paging) (0, st') /\
       console (trace st') =
         console (trace (Demo.boot 0 Demo.paging)) ++ report /\
       List.length report = 1%nat).
Proof.
  split; [reflexivity|]. split; [reflexivity|].
  intros (st' & report & [fuel Hrun] & Hc & Hlen).
  assert (Hst : st' = Demo.boot 0 Demo.paging).
  { destruct fuel; vm_compute in Hrun; now inversion Hrun. }
  subst st'. simpl in Hc. subst report. discriminate Hlen.
Qed.

Lemma showmap_aligned_rows_witness :
  2 <= 3 /\
  start_address Demo.strtol Demo.argv_two_pages mod PGSIZE = 0 /\
  0 < page_count Demo.strtol 3 Demo.argv_two_pages /\
  start_address Demo.strtol Demo.argv_two_pages +
    page_count Demo.strtol 3 Demo.argv_two_pages * PGSIZE < WORD /\
  exists st' report,
    Demo.showmap_ends 3 Demo.argv_two_pages
      (Demo.boot 0 Demo.paging) (0, st') /\
    List.length report = 2%nat /\
    nth_error (map row_va report) 1 = Some (Some 0x00401000).
Proof.
  assert (H1 : 2 <= 3) by discriminate.
  assert (H2 : start_address Demo.strtol Demo.argv_two_pages
               mod PGSIZE = 0) by reflexivity.
  assert (H3 : 0 < page_count Demo.strtol 3 Demo.argv_two_pages)
    by reflexivity.
  assert (H4 : start_address Demo.strtol Demo.argv_two_pages +
               page_count Demo.strtol 3 Demo.argv_two_pages * PGSIZE
               < WORD) by reflexivity.
  destruct (showmap_aligned_rows Demo.Mem Demo.mem_read
              Demo.kern_pgdir Demo.pgdir_walk Demo.strtol
              Demo.Trapframe 3 Demo.argv_two_pages None
              (Demo.boot 0 Demo.paging) H1 H2 H3 H4)
    as (st' & report & Hret & _ & _ & Hlen & Hva).
  repeat (split; [assumption|]).
  exists st', report. split; [exact Hret|]. split; [exact Hlen|].
  exact (proj1 (Hva 1%nat (le_n 2))).
Defined.

Lemma showmap_unaligned_rows_witness :
  2 <= 3 /\
  0 < page_count Demo.strtol 3 Demo.argv_unaligned /\
  start_address Demo.strtol Demo.argv_unaligned +
    page_count Demo.strtol 3 Demo.argv_unaligned * PGSIZE < WORD /\
  exists st' report,
    Demo.showmap_ends 3 Demo.argv_unaligned
      (Demo.boot 0 Demo.paging) (0, st') /\
    List.length report = 2%nat /\
    nth_error (map row_va report) 0 = Some (Some 0x00400000) /\
    nth_error (map row_va report) 1 = Some (Some 0x00401000).
Proof.
  assert (H1 : 2 <= 3) by discriminate.
  assert (H2 : 0 < page_count Demo.strtol 3 Demo.argv_unaligned)
    by reflexivity.
  assert (H3 : start_address Demo.strtol Demo.argv_unaligned +
               page_count Demo.strtol 3 Demo.argv_unaligned * PGSIZE
               < WORD) by reflexivity.
  destruct (showmap_unaligned_rows Demo.Mem Demo.mem_read
              Demo.kern_pgdir Demo.pgdir_walk Demo.strtol
              Demo.Trapframe 3 Demo.argv_unaligned None
              (Demo.boot 0 Demo.paging) H1 H2 H3)
    as (st' & report & Hret & _ & _ & Hlen & Hva).
  repeat (split; [assumption|]).
  exists st', report. split; [exact Hret|]. split; [exact Hlen|].
  split; [exact (proj1 (Hva 0%nat (le_S 1 1 (le_n 1))))
         |exact (proj1 (Hva 1%nat (le_n 2)))].
Defined.

Lemma showmap_row_contents_witness :
  2 <= 3 /\
  exists st' report,
    Demo.showmap_ends 3 Demo.argv_two_pages
      (Demo.boot 0 Demo.paging) (0, st') /\
    nth_error report 0 =
      Some (fmt_mapped,
            [ArgInt 0x00400000; ArgInt 0x00100000; ArgInt 1; ArgInt 1]) /\
    nth_error report 1 = Some (fmt_nomap, [ArgInt 0x00401000]).
Proof.
  assert (H1 : 2 <= 3) by discriminate.
  destruct (showmap_row_contents Demo.Mem Demo.mem_read
              Demo.kern_pgdir Demo.pgdir_walk Demo.strtol
              Demo.Trapframe 3 Demo.argv_two_pages None
              (Demo.boot 0 Demo.paging) H1)
    as (st' & report & Hret & _ & _ & Hrow).
  split; [assumption|].
  exists st', report. split; [exact Hret|]. split.
  - apply (proj2 (Hrow 0%nat (le_S 1 1 (le_n 1)))).
    + discriminate.
    + reflexivity.
  - apply (proj1 (Hrow 1%nat (le_n 2))). right. reflexivity.
Defined.

Lemma showmap_usage_on_missing_address_witness :
  1 < 2 /\
  exists st',
    Demo.showmap 0 1 Demo.argv_no_address
      (Demo.boot 0 Demo.paging) = Some (0, st') /\
    trace st' = [EvCprintf msg []].
Proof.
  assert (H1 : 1 < 2) by reflexivity.
  destruct (showmap_usage_on_missing_address Demo.Mem Demo.mem_read
              Demo.kern_pgdir Demo.pgdir_walk Demo.strtol
              Demo.Trapframe 1 Demo.argv_no_address None
              (Demo.boot 0 Demo.paging) 0 H1)
    as (st' & Hrun & Htr & _).
  split; [assumption|]. exists st'. split; [exact Hrun|exact Htr].
Defined.

Lemma showmap_never_creates_witness :
  walk_reads_only Demo.pgdir_walk /\
  exists st',
    Demo.showmap_ends 3 Demo.argv_two_pages
      (Demo.boot 0 Demo.paging) (0, st') /\
    mem st' = Demo.paging.
Proof.
  destruct (showmap_never_creates Demo.Mem Demo.mem_read
              Demo.kern_pgdir Demo.pgdir_walk Demo.strtol
              Demo.Trapframe 3 Demo.argv_two_pages None
              (Demo.boot 0 Demo.paging))
    as (st' & tr & Hret & _ & _ & Hmem).
  split; [exact demo_walk_reads_only|].
  exists st'. split; [exact Hret|exact (Hmem demo_walk_reads_only)].
Defined.

Lemma showmap_report_repeatable_witness :
  mem (Demo.boot 0 Demo.paging) =
    mem (Demo.boot 0xF010FF18 Demo.paging) /\
  exists st1' st2' report,
    Demo.showmap_ends 3 Demo.argv_two_pages
      (Demo.boot 0 Demo.paging) (0, st1') /\
    Demo.showmap_ends 3 Demo.argv_two_pages
      (Demo.boot 0xF010FF18 Demo.paging) (0, st2') /\
    console (trace st1') = report /\
    console (trace st2') = report.
Proof.
  assert (H1 : mem (Demo.boot 0 Demo.paging) =
               mem (Demo.boot 0xF010FF18 Demo.paging))
    by reflexivity.
  destruct (showmap_report_repeatable Demo.Mem Demo.mem_read
              Demo.kern_pgdir Demo.pgdir_walk Demo.strtol
              Demo.Trapframe 3 Demo.argv_two_pages None
              (Demo.boot 0 Demo.paging)
              (Demo.boot 0xF010FF18 Demo.paging) H1)
    as (st1' & st2' & report & Hr1 & Hr2 & Hc1 & Hc2 & _).
  split; [assumption|].
  exists st1', st2', report. repeat split; assumption.
Defined.

Lemma backtrace_full_chain_witness :
  frame_chain Demo.mem_read Demo.stack3 0xF010FF18
    [0xF010FF18; 0xF010FF58; 0xF010FF98] = true /\
  forallb (resolvable Demo.mem_read Demo.debuginfo_eip Demo.stack3)
    [0xF010FF18; 0xF010FF58; 0xF010FF98] = true /\
  exists st' entries,
    Demo.backtrace_ends 1 Demo.argv_backtrace
      (Demo.boot 0xF010FF18 Demo.stack3) (0, st') /\
    console (trace st') = (fmt_backtrace_header, []) :: List.concat entries /\
    List.length entries = 3%nat.
Proof.
  assert (H1 : frame_chain Demo.mem_read Demo.stack3 0xF010FF18
                 [0xF010FF18; 0xF010FF58; 0xF010FF98] = true)
    by reflexivity.
  assert (H2 : forallb
                 (resolvable Demo.mem_read Demo.debuginfo_eip
                    Demo.stack3)
                 [0xF010FF18; 0xF010FF58; 0xF010FF98] = true)
    by reflexivity.
  destruct (backtrace_full_chain Demo.Mem Demo.mem_read
              Demo.debuginfo_eip Demo.Trapframe 1
              Demo.argv_backtrace None
              (Demo.boot 0xF010FF18 Demo.stack3)
              [0xF010FF18; 0xF010FF58; 0xF010FF98] H1 H2)
    as (st' & entries & Hret & Hc & Hlen & _).
  repeat (split; [assumption|]).
  exists st', entries. split; [exact Hret|]. split; [exact Hc|exact Hlen].
Defined.

Lemma backtrace_stops_at_unresolved_witness :
  frame_path Demo.mem_read Demo.stack_broken 0xF010FF18
    [0xF010FF18] 0xF010FF58 = true /\
  forallb
    (resolvable Demo.mem_read Demo.debuginfo_eip Demo.stack_broken)
    [0xF010FF18] = true /\
  0xF010FF58 <> 0 /\
  resolvable Demo.mem_read Demo.debuginfo_eip Demo.stack_broken
    0xF010FF58 = false /\
  exists st' entries,
    Demo.backtrace_ends 1 Demo.argv_backtrace
      (Demo.boot 0xF010FF18 Demo.stack_broken) (0, st') /\
    console (trace st') = (fmt_backtrace_header, []) :: List.concat entries /\
    List.length entries = 1%nat.
Proof.
  assert (H1 : frame_path Demo.mem_read Demo.stack_broken 0xF010FF18
                 [0xF010FF18] 0xF010FF58 = true) by reflexivity.
  assert (H2 : forallb
                 (resolvable Demo.mem_read Demo.debuginfo_eip
                    Demo.stack_broken) [0xF010FF18] = true)
    by reflexivity.
  assert (H3 : 0xF010FF58 <> 0) by discriminate.
  assert (H4 : resolvable Demo.mem_read Demo.debuginfo_eip
                 Demo.stack_broken 0xF010FF58 = false) by reflexivity.
  destruct (backtrace_stops_at_unresolved Demo.Mem Demo.mem_read
              Demo.debuginfo_eip Demo.Trapframe 1
              Demo.argv_backtrace None
              (Demo.boot 0xF010FF18 Demo.stack_broken)
              [0xF010FF18] 0xF010FF58 H1 H2 H3 H4)
    as (st' & entries & Hret & Hc & Hlen & _).
  repeat (split; [assumption|]).
  exists st', entries. split; [exact Hret|]. split; [exact Hc|exact Hlen].
Defined.

Lemma backtrace_zero_frame_pointer_witness :
  ebp_reg (Demo.boot 0 Demo.stack3) = 0 /\
  exists st',
    Demo.backtrace 0 1 Demo.argv_backtrace
      (Demo.boot 0 Demo.stack3) = Some (0, st') /\
    trace st' = [EvCprintf fmt_backtrace_header []].
Proof.
  assert (H1 : ebp_reg (Demo.boot 0 Demo.stack3) = 0) by reflexivity.
  destruct (backtrace_zero_frame_pointer Demo.Mem Demo.mem_read
              Demo.debuginfo_eip Demo.Trapframe 0 1
              Demo.argv_backtrace None (Demo.boot 0 Demo.stack3) H1)
    as (st' & Hrun & Htr & _).
  split; [assumption|]. exists st'. split; [exact Hrun|exact Htr].
Defined.

(** C8, on a frame that saves its own address and whose return address
    resolves: [mon_backtrace] walks that frame for ever and returns no
    status at all. *)
Lemma backtrace_cyclic_never_returns :
  ~ (exists r,
       Demo.backtrace_ends 1 Demo.argv_backtrace
         (Demo.boot 0xF010FF18 Demo.stack_cyclic) r).
Proof.
  intros [r [fuel Hrun]].
  rewrite mon_backtrace_unfold in Hrun.
  rewrite backtrace_loop_cycle in Hrun; [discriminate|..].
  - split; [discriminate|reflexivity].
  - discriminate.
  - reflexivity.
  - reflexivity.
Qed.

Lemma commands_return_zero_witness :
  frame_path Demo.mem_read Demo.stack_broken 0xF010FF18
    [0xF010FF18] 0xF010FF58 = true /\
  forallb
    (resolvable Demo.mem_read Demo.debuginfo_eip Demo.stack_broken)
    [0xF010FF18] = true /\
  resolvable Demo.mem_read Demo.debuginfo_eip Demo.stack_broken
    0xF010FF58 = false /\
  (exists st',
     Demo.showmap_ends 3 Demo.argv_last_page
       (Demo.boot 0 Demo.paging) (0, st')) /\
  (exists st',
     Demo.backtrace_ends 1 Demo.argv_backtrace
       (Demo.boot 0xF010FF18 Demo.stack_broken) (0, st')).
Proof.
  assert (H1 : frame_path Demo.mem_read Demo.stack_broken 0xF010FF18
                 [0xF010FF18] 0xF010FF58 = true) by reflexivity.
  assert (H2 : forallb
                 (resolvable Demo.mem_read Demo.debuginfo_eip
                    Demo.stack_broken) [0xF010FF18] = true)
    by reflexivity.
  assert (H3 : resolvable Demo.mem_read Demo.debuginfo_eip
                 Demo.stack_broken 0xF010FF58 = false) by reflexivity.
  destruct (commands_return_zero Demo.Mem Demo.mem_read
              Demo.kern_pgdir Demo.pgdir_walk Demo.debuginfo_eip
              Demo.strtol Demo.Trapframe)
    as (Hshow & _ & Hwalk & _).
  repeat (split; [assumption|]).
  split.
  - exact (Hshow 3 Demo.argv_last_page None
             (Demo.boot 0 Demo.paging)).
  - exact (Hwalk 1 Demo.argv_backtrace None
             (Demo.boot 0xF010FF18 Demo.stack_broken)
             [0xF010FF18] 0xF010FF58 H1 H2 (or_intror H3)).
Defined.


(** ** The tokenizer of [runcmd] *)

Lemma is_space_not_nul (c : ascii) :
  is_space c = true -> Ascii.eqb c zero = false /\ strchr WHITESPACE c = true.
Proof.
  unfold is_space. intros H. apply andb_prop in H as [Hn Hs].
  apply negb_true_iff in Hn. now split.
Qed.

Lemma in_arg_not_nul (c : ascii) :
  in_arg c = true -> Ascii.eqb c zero = false /\ strchr WHITESPACE c = false.
Proof.
  unfold in_arg. intros H. apply andb_prop in H as [Hn Hs].
  apply negb_true_iff in Hn. apply negb_true_iff in Hs. now split.
Qed.

Lemma string_append_cons (w : string) (c : ascii) (s : string) :
  ((w ++ String c EmptyString) ++ s)%string = (w ++ String c s)%string.
Proof. induction w as [|a w IH]; simpl; [reflexivity|now rewrite IH]. Qed.

Lemma string_append_empty (w : string) : (w ++ EmptyString)%string = w.
Proof. induction w as [|a w IH]; simpl; [reflexivity|now rewrite IH]. Qed.

Lemma skipn_length_app {A : Type} (l1 l2 : list A) :
  skipn (List.length l1) (l1 ++ l2) = l2.
Proof. induction l1 as [|a l1 IH]; simpl; [reflexivity|exact IH]. Qed.

Lemma rev_repeat_zero (n : nat) : rev (repeat zero n) = repeat zero n.
Proof.
  induction n as [|n IH]; simpl; [reflexivity|].
  rewrite IH. clear IH.
  induction n as [|n IH]; simpl; [reflexivity|now rewrite IH].
Qed.

(** What the whitespace loop does: it overwrites the run of
    whitespace at the pointer and stops behind it. *)
Lemma gobble_spec (rest : list ascii) :
  forall done,
  exists ws rest',
    gobble done rest = (repeat zero (List.length ws) ++ done, rest') /\
    rest = ws ++ rest' /\
    forallb is_space ws = true /\
    is_space (peek rest') = false.
Proof.
  induction rest as [|c rest IH]; intros done.
  - exists [], []. repeat split.
  - simpl. destruct (is_space c) eqn:Hc.
    + destruct (IH (zero :: done)) as (ws & rest' & Hg & Hr & Hws & Hstop).
      exists (c :: ws), rest'. rewrite Hg, Hr. simpl. rewrite Hc, Hws.
      repeat split; [|assumption].
      f_equal. change (zero :: done) with ([zero] ++ done).
      rewrite app_assoc. f_equal.
      change (zero :: repeat zero (List.length ws))
        with (repeat zero (S (List.length ws))).
      now rewrite <- repeat_cons.
    + exists [], (c :: rest). repeat split. exact Hc.
Qed.

(** What the argument loop does: it passes the run of argument
    characters at the pointer without changing it. *)
Lemma skip_arg_spec (rest : list ascii) :
  forall done,
  exists tok rest',
    skip_arg done rest = (rev tok ++ done, rest') /\
    rest = tok ++ rest' /\
    forallb in_arg tok = true /\
    in_arg (peek rest') = false.
Proof.
  induction rest as [|c rest IH]; intros done.
  - exists [], []. repeat split.
  - simpl. destruct (in_arg c) eqn:Hc.
    + destruct (IH (c :: done)) as (tok & rest' & Hg & Hr & Htok & Hstop).
      exists (c :: tok), rest'. rewrite Hg, Hr. simpl. rewrite Hc, Htok.
      repeat split; [|assumption].
      now rewrite <- app_assoc.
    + exists [], (c :: rest). repeat split. exact Hc.
Qed.

Lemma blanked_spaces (ws rest : list ascii) :
  forallb is_space ws = true ->
  blanked (ws ++ rest) = repeat zero (List.length ws) ++ blanked rest.
Proof.
  induction ws as [|c ws IH]; simpl; [reflexivity|].
  intros H. apply andb_prop in H as [Hc Hws].
  destruct (is_space_not_nul c Hc) as [-> ->]. now rewrite IH.
Qed.

Lemma blanked_arg (tok rest : list ascii) :
  forallb in_arg tok = true ->
  blanked (tok ++ rest) = tok ++ blanked rest.
Proof.
  induction tok as [|c tok IH]; simpl; [reflexivity|].
  intros H. apply andb_prop in H as [Hc Htok].
  destruct (in_arg_not_nul c Hc) as [-> ->]. now rewrite IH.
Qed.

Lemma blanked_length (l : list ascii) :
  List.length (blanked l) = List.length l.
Proof.
  induction l as [|c l IH]; simpl; [reflexivity|].
  destruct (Ascii.eqb c zero); simpl; [reflexivity|now rewrite IH].
Qed.

Lemma peek_blanked_stop (rest : list ascii) :
  in_arg (peek rest) = false -> Ascii.eqb (peek (blanked rest)) zero = true.
Proof.
  destruct rest as [|c rest]; simpl; [reflexivity|].
  unfold in_arg. destruct (Ascii.eqb c zero) eqn:Hc; simpl.
  - intros _. exact Hc.
  - intros H. apply negb_false_iff in H. rewrite H. reflexivity.
Qed.

Lemma split_line_spaces (ws rest : list ascii) :
  forallb is_space ws = true ->
  split_line (ws ++ rest) EmptyString = split_line rest EmptyString.
Proof.
  induction ws as [|c ws IH]; simpl; [reflexivity|].
  intros H. apply andb_prop in H as [Hc Hws].
  destruct (is_space_not_nul c Hc) as [-> ->]. now apply IH.
Qed.

Lemma split_line_arg (tok rest : list ascii) :
  forallb in_arg tok = true ->
  forall word,
    split_line (tok ++ rest) word =
    split_line rest (word ++ string_of_list_ascii tok).
Proof.
  induction tok as [|c tok IH]; simpl; intros H word.
  - now rewrite string_append_empty.
  - apply andb_prop in H as [Hc Htok].
    destruct (in_arg_not_nul c Hc) as [-> ->].
    rewrite IH by exact Htok. now rewrite string_append_cons.
Qed.

Lemma split_line_stop (rest : list ascii) (word : string) :
  in_arg (peek rest) = false ->
  split_line rest word = flush word ++ split_line rest EmptyString.
Proof.
  destruct rest as [|c rest]; simpl.
  - intros _. now rewrite app_nil_r.
  - unfold in_arg. destruct (Ascii.eqb c zero) eqn:Hc; simpl.
    + intros _. now rewrite app_nil_r.
    + intros H. apply negb_false_iff in H. now rewrite H.
Qed.

Lemma c_string_arg (tok rest : list ascii) :
  forallb in_arg tok = true ->
  Ascii.eqb (peek rest) zero = true ->
  c_string_from (tok ++ rest) = string_of_list_ascii tok.
Proof.
  intros Htok Hstop. induction tok as [|c tok IH]; simpl.
  - destruct rest as [|c rest]; simpl in *; [reflexivity|now rewrite Hstop].
  - simpl in Htok. apply andb_prop in Htok as [Hc Htok].
    destruct (in_arg_not_nul c Hc) as [-> _]. now rewrite IH.
Qed.

(** The words of a line from a pointer that stands on an argument: the
    argument, then the words of what follows it. *)
Lemma words_at_arg (tok rest : list ascii) :
  tok <> [] ->
  forallb in_arg tok = true ->
  in_arg (peek rest) = false ->
  words (tok ++ rest) = string_of_list_ascii tok :: words rest.
Proof.
  intros Hne Htok Hstop. unfold words.
  rewrite split_line_arg by exact Htok.
  rewrite split_line_stop by exact Hstop. simpl.
  destruct tok as [|c tok]; [contradiction|reflexivity].
Qed.

Lemma parse_args_mono (fuel : nat) :
  forall done rest argv r,
    parse_args fuel done rest argv = Some r ->
    forall fuel', (fuel <= fuel')%nat ->
      parse_args fuel' done rest argv = Some r.
Proof.
  induction fuel as [|fuel IH]; intros done rest argv r Hrun fuel' Hle;
    [discriminate|].
  destruct fuel' as [|fuel']; [lia|].
  cbn [parse_args] in *. destruct (gobble done rest) as [done1 rest1].
  destruct (Ascii.eqb (peek rest1) zero); [exact Hrun|].
  destruct (Z.of_nat (List.length argv) =? MAXARGS - 1); [exact Hrun|].
  destruct (skip_arg done1 rest1) as [done2 rest2].
  apply IH with (fuel' := fuel') in Hrun; [exact Hrun|lia].
Qed.

(** The parsing loop from any point of a line: with room in [argv]
    for the words that remain it stores a pointer to each, leaving the
    buffer blanked; without room it gives up.  It needs one turn more
    than the words it stores. *)
Lemma parse_args_run (fuel : nat) :
  forall done rest argv,
    (List.length argv <= 15)%nat ->
    (List.length (words rest) < fuel \/ 15 - List.length argv < fuel)%nat ->
    if (List.length argv + List.length (words rest) <=? 15)%nat then
      exists ptrs,
        parse_args fuel done rest argv =
          Some (Parsed (rev done ++ blanked rest) (argv ++ ptrs)) /\
        map (c_string (rev done ++ blanked rest)) ptrs = words rest
    else parse_args fuel done rest argv = Some TooMany.
Proof.
  induction fuel as [|fuel IH]; intros done rest argv Hargv Hfuel; [lia|].
  cbn [parse_args].
  destruct (gobble_spec rest done) as (ws & rest1 & -> & -> & Hws & Hstop1).
  assert (Hwords : words (ws ++ rest1) = words rest1)
    by (now apply split_line_spaces).
  rewrite Hwords in *. rewrite blanked_spaces by exact Hws.
  destruct (Ascii.eqb (peek rest1) zero) eqn:Hnul.
  - (* the end of the line *)
    assert (Hnone : words rest1 = []).
    { destruct rest1 as [|c r]; [reflexivity|].
      simpl in Hnul. unfold words. simpl. now rewrite Hnul. }
    assert (Hsame : blanked rest1 = rest1).
    { destruct rest1 as [|c r]; [reflexivity|].
      simpl in Hnul. simpl. now rewrite Hnul. }
    rewrite Hnone, Hsame. simpl. rewrite Nat.add_0_r.
    destruct (Nat.leb_spec (List.length argv) 15); [|lia].
    exists [].
    rewrite app_nil_r, rev_app_distr, rev_repeat_zero, <- app_assoc.
    split; reflexivity.
  - (* an argument starts here *)
    assert (Harg : in_arg (peek rest1) = true).
    { unfold in_arg, is_space in *. rewrite Hnul in *. simpl in *.
      now rewrite Hstop1. }
    destruct (skip_arg_spec rest1 (repeat zero (List.length ws) ++ done))
      as (tok & rest2 & Hskip & -> & Htok & Hstop2).
    assert (Hne : tok <> []).
    { intros ->. simpl in Harg. congruence. }
    rewrite (words_at_arg tok rest2 Hne Htok Hstop2) in *.
    cbn [List.length] in *.
    destruct (Z.eqb_spec (Z.of_nat (List.length argv)) (MAXARGS - 1))
      as [Hfull|Hroom].
    + unfold MAXARGS in Hfull.
      destruct (Nat.leb_spec
                  (List.length argv + S (List.length (words rest2))) 15);
        [lia|reflexivity].
    + unfold MAXARGS in Hroom. rewrite Hskip.
      specialize (IH (rev tok ++ repeat zero (List.length ws) ++ done) rest2
                    (argv ++ [List.length
                                (repeat zero (List.length ws) ++ done)])).
      rewrite length_app in IH. cbn [List.length] in IH.
      specialize (IH ltac:(lia) ltac:(lia)).
      replace (List.length argv + 1 + List.length (words rest2))%nat
        with (List.length argv + S (List.length (words rest2)))%nat
        in IH by lia.
      assert (Hbuf : rev (rev tok ++ repeat zero (List.length ws) ++ done)
                     ++ blanked rest2 =
                     rev (repeat zero (List.length ws) ++ done)
                     ++ blanked (tok ++ rest2)).
      { rewrite blanked_arg by exact Htok.
        rewrite (rev_app_distr (rev tok)), rev_involutive.
        now rewrite <- app_assoc. }
      rewrite Hbuf in IH.
      rewrite rev_app_distr, rev_repeat_zero, <- app_assoc in IH.
      destruct (List.length argv + S (List.length (words rest2)) <=? 15)%nat;
        [|exact IH].
      destruct IH as (ptrs & Hrun & Hstr).
      exists (List.length (repeat zero (List.length ws) ++ done) :: ptrs).
      rewrite Hrun, <- app_assoc. split; [reflexivity|].
      cbn [map]. rewrite Hstr. f_equal.
      unfold c_string.
      replace (List.length (repeat zero (List.length ws) ++ done))
        with (List.length (rev done ++ repeat zero (List.length ws)))
        by (rewrite !length_app, length_rev; lia).
      rewrite app_assoc, skipn_length_app, blanked_arg by exact Htok.
      apply c_string_arg; [exact Htok|].
      now apply peek_blanked_stop.
Qed.

Lemma list_ascii_of_string_app (w : string) (c : ascii) :
  list_ascii_of_string (w ++ String c EmptyString) =
  list_ascii_of_string w ++ [c].
Proof. induction w as [|a w IH]; simpl; [reflexivity|now rewrite IH]. Qed.

Lemma is_word_snoc (w : string) (c : ascii) :
  w = EmptyString \/ is_word w = true ->
  in_arg c = true ->
  is_word (w ++ String c EmptyString) = true.
Proof.
  intros Hw Hc. unfold is_word.
  rewrite list_ascii_of_string_app, forallb_app. cbn [forallb].
  rewrite Hc. destruct Hw as [->|Hw]; [reflexivity|].
  unfold is_word in Hw. apply andb_prop in Hw as [_ Hall]. rewrite Hall.
  destruct w; reflexivity.
Qed.

Lemma flush_words (w : string) :
  w = EmptyString \/ is_word w = true -> forallb is_word (flush w) = true.
Proof.
  intros [->|Hw]; [reflexivity|].
  destruct w; [reflexivity|]. cbn [flush forallb]. now rewrite Hw.
Qed.

Lemma split_line_words (l : list ascii) :
  forall w,
    w = EmptyString \/ is_word w = true ->
    forallb is_word (split_line l w) = true.
Proof.
  induction l as [|c l IH]; intros w Hw; cbn [split_line].
  - now apply flush_words.
  - destruct (Ascii.eqb c zero) eqn:Hnul; [now apply flush_words|].
    destruct (strchr WHITESPACE c) eqn:Hsp.
    + rewrite forallb_app, flush_words by exact Hw.
      apply IH. now left.
    + apply IH. right. apply is_word_snoc; [exact Hw|].
      unfold in_arg. now rewrite Hnul, Hsp.
Qed.

Lemma words_of_joined (ws : list string) :
  forallb is_word ws = true -> words (join_words ws) = ws.
Proof.
  induction ws as [|w ws IH]; intros Hws; [reflexivity|].
  cbn [forallb] in Hws. apply andb_prop in Hws as [Hw Hws].
  assert (Htok : forallb in_arg (list_ascii_of_string w) = true).
  { unfold is_word in Hw. now apply andb_prop in Hw as [_ ?]. }
  assert (Hne : list_ascii_of_string w <> []).
  { destruct w; [discriminate|discriminate]. }
  destruct ws as [|w' ws].
  - cbn [join_words].
    rewrite <- (app_nil_r (list_ascii_of_string w)).
    rewrite words_at_arg by (assumption || reflexivity).
    now rewrite string_of_list_ascii_of_string.
  - change (join_words (w :: w' :: ws))
      with (list_ascii_of_string w ++ " "%char :: join_words (w' :: ws)).
    rewrite words_at_arg by (assumption || reflexivity).
    rewrite string_of_list_ascii_of_string. f_equal.
    change (" "%char :: join_words (w' :: ws))
      with ([" "%char] ++ join_words (w' :: ws)).
    unfold words at 1. rewrite split_line_spaces by reflexivity.
    now apply IH.
Qed.

(** ** Properties of the tokenizer *)

(** On a line of at most fifteen words the parsing loop of
    [runcmd] finishes, leaves the buffer with every whitespace
    character before the first 0 overwritten by 0, and stores one
    pointer per word: the strings the pointers designate in the buffer
    are the words of the line, in order. *)
Lemma parse_args_line (fuel : nat) (line : list ascii) :
  (List.length (words line) <= 15)%nat ->
  (List.length (words line) < fuel)%nat ->
  exists ptrs,
    parse_args fuel [] line [] = Some (Parsed (blanked line) ptrs) /\
    map (c_string (blanked line)) ptrs = words line.
Proof.
  intros Hfit Hfuel.
  pose proof (parse_args_run fuel [] line [] (Nat.le_0_l 15)
                (or_introl Hfuel)) as Hrun.
  cbn [List.length Nat.add rev app] in Hrun.
  destruct (Nat.leb_spec (List.length (words line)) 15); [|lia].
  exact Hrun.
Qed.

(** On a line of sixteen words or more the parsing loop gives up,
    whatever follows the fifteenth word; sixteen turns are enough for
    that. *)
Lemma parse_args_too_many (fuel : nat) (line : list ascii) :
  (15 < List.length (words line))%nat ->
  (16 <= fuel)%nat ->
  parse_args fuel [] line [] = Some TooMany.
Proof.
  intros Hmany Hfuel.
  assert (Hturns : (15 - List.length (@nil nat) < fuel)%nat)
    by (simpl; lia).
  pose proof (parse_args_run fuel [] line [] (Nat.le_0_l 15)
                (or_intror Hturns)) as Hrun.
  cbn [List.length Nat.add] in Hrun.
  destruct (Nat.leb_spec (List.length (words line)) 15); [lia|].
  exact Hrun.
Qed.

(** X1: on a line of at most fifteen words the parsing loop of
    [runcmd] finishes, leaves the buffer with every whitespace
    character before the first 0 overwritten by 0, and stores one
    pointer per word: the strings the pointers designate in the buffer
    are the words of the line, in order. *)
Theorem parse_args_words (fuel : nat) (line : list ascii) :
  (List.length (words line) <= 15)%nat ->
  (List.length (words line) < fuel)%nat ->
  exists ptrs,
    parse_args fuel [] line [] = Some (Parsed (blanked line) ptrs) /\
    map (c_string (blanked line)) ptrs = words line.
Proof. exact (parse_args_line fuel line). Qed.

(** X2: whenever the parsing loop ends with arguments, with whatever
    fuel, there are at most fifteen of them, each is a word (not
    empty, without whitespace and without 0), and the buffer has kept
    its length. *)
Theorem parse_args_arguments (fuel : nat) (line buffer : list ascii)
  (ptrs : list nat) :
  parse_args fuel [] line [] = Some (Parsed buffer ptrs) ->
  (List.length ptrs <= 15)%nat /\
  forallb is_word (map (c_string buffer) ptrs) = true /\
  List.length buffer = List.length line.
Proof.
  intros Hrun.
  apply parse_args_mono
    with (fuel' := Nat.max fuel (S (List.length (words line)))) in Hrun;
    [|lia].
  destruct (Nat.le_gt_cases (List.length (words line)) 15) as [Hfit|Hmany].
  - destruct (parse_args_line
                (Nat.max fuel (S (List.length (words line)))) line Hfit
                ltac:(lia)) as (ptrs' & Hrun' & Hstr).
    rewrite Hrun' in Hrun. injection Hrun as <- <-.
    rewrite Hstr. split; [|split].
    + rewrite <- (length_map (c_string (blanked line))), Hstr. exact Hfit.
    + apply split_line_words. now left.
    + apply blanked_length.
  - apply parse_args_mono
      with (fuel' := Nat.max (Nat.max fuel (S (List.length (words line)))) 16)
      in Hrun; [|lia].
    rewrite parse_args_too_many in Hrun by lia. discriminate.
Qed.

(** X3: round trip.  At most fifteen words written on a line with one
    space between them are read back by the parsing loop as they
    were. *)
Theorem parse_args_joined (fuel : nat) (ws : list string) :
  forallb is_word ws = true ->
  (List.length ws <= 15)%nat ->
  (List.length ws < fuel)%nat ->
  exists buffer ptrs,
    parse_args fuel [] (join_words ws) [] = Some (Parsed buffer ptrs) /\
    map (c_string buffer) ptrs = ws.
Proof.
  intros Hws Hfit Hfuel.
  pose proof (words_of_joined ws Hws) as Hwords.
  destruct (parse_args_line fuel (join_words ws)) as (ptrs & Hrun & Hstr);
    try (rewrite Hwords; assumption).
  exists (blanked (join_words ws)), ptrs. split; [exact Hrun|].
  now rewrite Hstr.
Qed.

(** ** Runs of the interpreter *)

Lemma nat_of_ascii_inj (a b : ascii) :
  Z.of_nat (nat_of_ascii a) - Z.of_nat (nat_of_ascii b) = 0 -> a = b.
Proof.
  intros H. rewrite <- (ascii_nat_embedding a), <- (ascii_nat_embedding b).
  f_equal. lia.
Qed.

Lemma strcmp_same (p : string) : strcmp p p = 0.
Proof.
  induction p as [|a p IH]; simpl; [reflexivity|].
  now rewrite Ascii.eqb_refl.
Qed.

Lemma strcmp_zero_eq (p : string) :
  forall q,
    nul_free p = true -> nul_free q = true -> strcmp p q = 0 -> p = q.
Proof.
  unfold nul_free.
  induction p as [|a p IH]; intros [|b q] Hp Hq Hcmp; simpl in *.
  - reflexivity.
  - apply andb_prop in Hq as [Hb _]. apply negb_true_iff in Hb.
    apply Ascii.eqb_neq in Hb. exfalso. apply Hb.
    apply nat_of_ascii_inj. simpl. lia.
  - apply andb_prop in Hp as [Ha _]. apply negb_true_iff in Ha.
    apply Ascii.eqb_neq in Ha. exfalso. apply Ha.
    apply nat_of_ascii_inj. simpl. lia.
  - apply andb_prop in Hp as [_ Hp]. apply andb_prop in Hq as [_ Hq].
    destruct (Ascii.eqb_spec a b) as [->|Hne].
    + f_equal. now apply IH.
    + exfalso. apply Hne. now apply nat_of_ascii_inj.
Qed.

Lemma is_word_nul_free (w : string) : is_word w = true -> nul_free w = true.
Proof.
  unfold is_word, nul_free. intros H. apply andb_prop in H as [_ H].
  induction (list_ascii_of_string w) as [|c l IH]; [reflexivity|].
  simpl in *. apply andb_prop in H as [Hc Hl].
  destruct (in_arg_not_nul c Hc) as [-> _]. now apply IH.
Qed.

Lemma commands_names_distinct : NoDup (map name commands).
Proof.
  repeat constructor; simpl; intuition discriminate.
Qed.

Lemma commands_names_nul_free :
  forallb (fun c => nul_free (name c)) commands = true.
Proof. reflexivity. Qed.

Section InterpreterFacts.

Variable Mem : Type.
Variable mem_read : Mem -> Z -> Z.
Variable kern_pgdir : Mem -> Z.
Variable pgdir_walk : Mem -> Z -> Z -> Z -> Z * Mem.
Variable debuginfo_eip : Z -> Z * Eipdebuginfo.
Variable strtol : string -> Z -> Z.
Variable Trapframe : Type.
Variable _start entry etext edata end_ : Z.
Variable KERNBASE : Z.
Variable ROUNDUP : Z -> Z -> Z.
Variable print_trapframe : Trapframe -> Machine Mem -> Machine Mem.

Local Abbreviation help := (mon_help (Mem := Mem) (Trapframe := Trapframe)).
Local Abbreviation kerninfo :=
  (mon_kerninfo (Mem := Mem) (Trapframe := Trapframe)
     _start entry etext edata end_ KERNBASE ROUNDUP).
Local Abbreviation call :=
  (call_command mem_read kern_pgdir pgdir_walk debuginfo_eip strtol
     (Trapframe := Trapframe) _start entry etext edata end_ KERNBASE ROUNDUP).
Local Abbreviation lookup :=
  (lookup_command mem_read kern_pgdir pgdir_walk debuginfo_eip strtol
     (Trapframe := Trapframe) _start entry etext edata end_ KERNBASE ROUNDUP).
Local Abbreviation run :=
  (runcmd mem_read kern_pgdir pgdir_walk debuginfo_eip strtol
     (Trapframe := Trapframe) _start entry etext edata end_ KERNBASE ROUNDUP).
Local Abbreviation repl_loop :=
  (monitor_loop mem_read kern_pgdir pgdir_walk debuginfo_eip strtol
     (Trapframe := Trapframe) _start entry etext edata end_ KERNBASE ROUNDUP).
Local Abbreviation session :=
  (session_run mem_read kern_pgdir pgdir_walk debuginfo_eip strtol
     (Trapframe := Trapframe) _start entry etext edata end_ KERNBASE ROUNDUP).
Local Abbreviation repl :=
  (monitor mem_read kern_pgdir pgdir_walk debuginfo_eip strtol
     (Trapframe := Trapframe) _start entry etext edata end_ KERNBASE ROUNDUP
     print_trapframe).
Local Abbreviation showmap :=
  (mon_showmap mem_read kern_pgdir pgdir_walk strtol
     (Trapframe := Trapframe)).
Local Abbreviation backtrace :=
  (mon_backtrace mem_read debuginfo_eip (Trapframe := Trapframe)).

(** The rows [mon_help] prints: one for each entry of the table. *)
Lemma help_loop_run (cmds : list Command) :
  forall st : Machine Mem,
    help_loop cmds st =
      Some (tt, {| ebp_reg := ebp_reg st; mem := mem st;
                   trace := trace st ++
                            map (fun c => EvCprintf fmt_help
                                            [ArgStr (name c);
                                             ArgStr (desc c)]) cmds |}).
Proof.
  induction cmds as [|c cmds IH]; intros st.
  - destruct st. simpl. now rewrite app_nil_r.
  - cbn [help_loop]. unfold bind, cprintf. rewrite IH.
    cbn [log ebp_reg mem trace map]. now rewrite <- app_assoc.
Qed.

Lemma mon_help_status (argc : Z) (argv : list string)
  (tf : option Trapframe) (st : Machine Mem) :
  exists st', help argc argv tf st = Some (0, st').
Proof.
  unfold mon_help, bind. rewrite help_loop_run. eexists. reflexivity.
Qed.

Lemma mon_kerninfo_status (argc : Z) (argv : list string)
  (tf : option Trapframe) (st : Machine Mem) :
  exists st', kerninfo argc argv tf st = Some (0, st').
Proof. eexists. reflexivity. Qed.

Lemma call_command_status (f : Handler) (fuel : nat) (argc : Z)
  (argv : list string) (tf : option Trapframe) (st st' : Machine Mem)
  (status : Z) :
  call f fuel argc argv tf st = Some (status, st') -> status = 0.
Proof.
  destruct f; cbn [call_command]; intros Hrun.
  - destruct (mon_help_status argc argv tf st) as [s Hs]. congruence.
  - destruct (mon_kerninfo_status argc argv tf st) as [s Hs]. congruence.
  - rewrite mon_backtrace_unfold in Hrun.
    destruct (backtrace_loop _ _ _ _ _ _) as [[[] s]|]; [|discriminate].
    now inversion Hrun.
  - destruct (Z.lt_ge_cases argc 2) as [Hlt|Hge].
    + rewrite mon_showmap_usage in Hrun by exact Hlt. now inversion Hrun.
    + rewrite mon_showmap_unfold in Hrun by exact Hge.
      destruct (showmap_loop _ _ _ _ _ _ _) as [[[] s]|]; [|discriminate].
      now inversion Hrun.
Qed.

Lemma lookup_command_status (cmds : list Command) (fuel : nat) (argc : Z)
  (argv : list string) (tf : option Trapframe) (st st' : Machine Mem)
  (status : Z) :
  lookup cmds fuel argc argv tf st = Some (status, st') -> status = 0.
Proof.
  induction cmds as [|c cmds IH]; cbn [lookup_command].
  - intros Hrun. now inversion Hrun.
  - destruct (strcmp _ _ =? 0); [apply call_command_status|exact IH].
Qed.

Lemma lookup_command_found (cmds : list Command) (c : Command)
  (fuel : nat) (argc : Z) (argv : list string) (tf : option Trapframe) :
  NoDup (map name cmds) ->
  forallb (fun c => nul_free (name c)) cmds = true ->
  In c cmds ->
  argv_at argv 0 = name c ->
  lookup cmds fuel argc argv tf = call (func c) fuel argc argv tf.
Proof.
  intros Hnd Hnf Hin Harg.
  induction cmds as [|c0 cmds IH]; [contradiction|].
  cbn [lookup_command map forallb] in *.
  apply andb_prop in Hnf as [Hnf0 Hnf]. inversion Hnd as [|? ? Hnotin Hnd'].
  subst. rewrite Harg.
  destruct Hin as [->|Hin].
  - now rewrite strcmp_same.
  - destruct (Z.eqb_spec (strcmp (name c) (name c0)) 0) as [Hcmp|_].
    + exfalso. apply Hnotin.
      apply strcmp_zero_eq in Hcmp; [|now apply (proj1 (forallb_forall _ _)
                                          Hnf c)|exact Hnf0].
      rewrite <- Hcmp. now apply in_map.
    + now apply IH.
Qed.

Lemma lookup_command_unknown (cmds : list Command) (fuel : nat) (argc : Z)
  (argv : list string) (tf : option Trapframe) (st : Machine Mem) :
  nul_free (argv_at argv 0) = true ->
  forallb (fun c => nul_free (name c)) cmds = true ->
  ~ In (argv_at argv 0) (map name cmds) ->
  lookup cmds fuel argc argv tf st =
    Some (0, log (EvCprintf fmt_unknown [ArgStr (argv_at argv 0)]) st).
Proof.
  intros Hw Hnf Hnotin.
  induction cmds as [|c0 cmds IH]; [reflexivity|].
  cbn [lookup_command map forallb] in *.
  apply andb_prop in Hnf as [Hnf0 Hnf].
  destruct (Z.eqb_spec (strcmp (argv_at argv 0) (name c0)) 0) as [Hcmp|_].
  - exfalso. apply Hnotin. left. symmetry.
    now apply strcmp_zero_eq.
  - apply IH; [exact Hnf|]. intros Hin. apply Hnotin. now right.
Qed.

(** [runcmd] on a line of at most fifteen words: the lookup runs on
    the words of the line. *)
Lemma runcmd_parsed (fuel : nat) (line : list ascii)
  (tf : option Trapframe) (st : Machine Mem) :
  (List.length (words line) <= 15)%nat ->
  (List.length (words line) < fuel)%nat ->
  run fuel line tf st =
    if Z.of_nat (List.length (words line)) =? 0 then Some (0, st)
    else lookup commands fuel (Z.of_nat (List.length (words line)))
           (words line) tf st.
Proof.
  intros Hfit Hfuel. unfold runcmd.
  destruct (parse_args_line fuel line Hfit Hfuel) as (ptrs & -> & Hstr).
  rewrite Hstr. rewrite <- (length_map (c_string (blanked line)) ptrs), Hstr.
  now destruct (Z.of_nat (List.length (words line)) =? 0).
Qed.

(** ** Properties of the interpreter *)

(** A line of at most fifteen words whose first word is the name
    of an entry of the command table makes [runcmd] call the function
    of that entry, with the number of words as [argc] and the words
    themselves, in order, as [argv]; whitespace around and between
    the words plays no part. *)
Lemma runcmd_on_command (fuel : nat) (line : list ascii)
  (tf : option Trapframe) (st : Machine Mem) (c : Command) :
  (List.length (words line) <= 15)%nat ->
  (List.length (words line) < fuel)%nat ->
  In c commands ->
  nth_error (words line) 0 = Some (name c) ->
  run fuel line tf st =
    call (func c) fuel (Z.of_nat (List.length (words line))) (words line)
      tf st.
Proof.
  intros Hfit Hfuel Hin Hfirst.
  rewrite runcmd_parsed by assumption.
  destruct (words line) as [|w0 rest] eqn:Hwords; [discriminate|].
  injection Hfirst as ->.
  destruct (Z.eqb_spec (Z.of_nat (List.length (name c :: rest))) 0)
    as [H0|_]; [simpl in H0; lia|].
  rewrite (lookup_command_found commands c fuel _ (name c :: rest) tf
             commands_names_distinct commands_names_nul_free Hin eq_refl).
  reflexivity.
Qed.

(** A line of at most fifteen words whose first word is not the
    name of a command makes [runcmd] print the unknown-command message
    with that word, do nothing else, and return 0. *)
Lemma runcmd_on_unknown (fuel : nat) (line : list ascii)
  (tf : option Trapframe) (st : Machine Mem) (w0 : string) :
  (List.length (words line) <= 15)%nat ->
  (List.length (words line) < fuel)%nat ->
  nth_error (words line) 0 = Some w0 ->
  ~ In w0 (map name commands) ->
  run fuel line tf st =
    Some (0, log (EvCprintf fmt_unknown [ArgStr w0]) st).
Proof.
  intros Hfit Hfuel Hfirst Hnotin.
  rewrite runcmd_parsed by assumption.
  pose proof (split_line_words line EmptyString (or_introl eq_refl))
    as Hwords.
  fold (words line) in Hwords.
  destruct (words line) as [|w rest]; [discriminate|].
  injection Hfirst as ->.
  destruct (Z.eqb_spec (Z.of_nat (List.length (w0 :: rest))) 0)
    as [H0|_]; [simpl in H0; lia|].
  cbn [forallb] in Hwords. apply andb_prop in Hwords as [Hw _].
  apply (lookup_command_unknown commands fuel _ (w0 :: rest) tf st).
  - now apply is_word_nul_free.
  - exact commands_names_nul_free.
  - exact Hnotin.
Qed.

(** A line without a word (empty, or whitespace only, or cut by
    a 0 before any word) makes [runcmd] return 0 without any effect. *)
Lemma runcmd_on_blank (fuel : nat) (line : list ascii)
  (tf : option Trapframe) (st : Machine Mem) :
  words line = [] ->
  (1 <= fuel)%nat ->
  run fuel line tf st = Some (0, st).
Proof.
  intros Hnone Hfuel.
  rewrite runcmd_parsed by (rewrite Hnone; simpl; lia).
  now rewrite Hnone.
Qed.

(** A line of sixteen words or more is refused: [runcmd] prints
    the too-many-arguments message (which names [MAXARGS], 16, as the
    maximum, one more than the fifteen words it accepts), calls no
    command and returns 0. *)
Lemma runcmd_on_too_many (fuel : nat) (line : list ascii)
  (tf : option Trapframe) (st : Machine Mem) :
  (15 < List.length (words line))%nat ->
  (16 <= fuel)%nat ->
  run fuel line tf st =
    Some (0, log (EvCprintf fmt_too_many [ArgInt 16]) st).
Proof.
  intros Hmany Hfuel. unfold runcmd.
  now rewrite parse_args_too_many by assumption.
Qed.

(** Whatever the line, the status [runcmd] returns is 0: no
    command line makes it return the negative status that ends the
    monitor. *)
Lemma runcmd_returns_zero (fuel : nat) (line : list ascii)
  (tf : option Trapframe) (st st' : Machine Mem) (status : Z) :
  run fuel line tf st = Some (status, st') -> status = 0.
Proof.
  unfold runcmd.
  destruct (parse_args fuel [] line []) as [[|buffer ptrs]|];
    [| |discriminate].
  - intros Hrun. now inversion Hrun.
  - cbv zeta. destruct (Z.of_nat (List.length ptrs) =? 0).
    + intros Hrun. now inversion Hrun.
    + apply lookup_command_status.
Qed.

(** X4: a line of at most fifteen words whose first word is the name
    of an entry of the command table makes [runcmd] call the function
    of that entry, with the number of words as [argc] and the words
    themselves, in order, as [argv]; whitespace around and between
    the words plays no part. *)
Theorem runcmd_dispatch (fuel : nat) (line : list ascii)
  (tf : option Trapframe) (st : Machine Mem) (c : Command) :
  (List.length (words line) <= 15)%nat ->
  (List.length (words line) < fuel)%nat ->
  In c commands ->
  nth_error (words line) 0 = Some (name c) ->
  run fuel line tf st =
    call (func c) fuel (Z.of_nat (List.length (words line))) (words line)
      tf st.
Proof. exact (runcmd_on_command fuel line tf st c). Qed.

(** X5: a line of at most fifteen words whose first word is not the
    name of a command makes [runcmd] print the unknown-command message
    with that word, do nothing else, and return 0. *)
Theorem runcmd_unknown (fuel : nat) (line : list ascii)
  (tf : option Trapframe) (st : Machine Mem) (w0 : string) :
  (List.length (words line) <= 15)%nat ->
  (List.length (words line) < fuel)%nat ->
  nth_error (words line) 0 = Some w0 ->
  ~ In w0 (map name commands) ->
  run fuel line tf st =
    Some (0, log (EvCprintf fmt_unknown [ArgStr w0]) st).
Proof. exact (runcmd_on_unknown fuel line tf st w0). Qed.

(** X6: a line without a word (empty, or whitespace only, or cut by
    a 0 before any word) makes [runcmd] return 0 without any effect. *)
Theorem runcmd_blank (fuel : nat) (line : list ascii)
  (tf : option Trapframe) (st : Machine Mem) :
  words line = [] ->
  (1 <= fuel)%nat ->
  run fuel line tf st = Some (0, st).
Proof. exact (runcmd_on_blank fuel line tf st). Qed.

(** X7: a line of sixteen words or more is refused: [runcmd] prints
    the too-many-arguments message (which names [MAXARGS], 16, as the
    maximum, one more than the fifteen words it accepts), calls no
    command and returns 0. *)
Theorem runcmd_too_many (fuel : nat) (line : list ascii)
  (tf : option Trapframe) (st : Machine Mem) :
  (15 < List.length (words line))%nat ->
  (16 <= fuel)%nat ->
  run fuel line tf st =
    Some (0, log (EvCprintf fmt_too_many [ArgInt 16]) st).
Proof. exact (runcmd_on_too_many fuel line tf st). Qed.

(** X8: whatever the line, the status [runcmd] returns is 0: no
    command line makes it return the negative status that ends the
    monitor. *)
Theorem runcmd_status (fuel : nat) (line : list ascii)
  (tf : option Trapframe) (st st' : Machine Mem) (status : Z) :
  run fuel line tf st = Some (status, st') -> status = 0.
Proof. exact (runcmd_returns_zero fuel line tf st st' status). Qed.

Lemma monitor_loop_stays (fuel : nat) (lines : list (option (list ascii)))
  (tf : option Trapframe) :
  forall (st st' : Machine Mem) (left : bool),
    repl_loop fuel lines tf st = Some (left, st') -> left = false.
Proof.
  induction lines as [|[buf|] lines IH]; intros st st' left Hrun;
    cbn [monitor_loop] in Hrun.
  - now inversion Hrun.
  - unfold bind in Hrun.
    destruct (run fuel buf tf st) as [[status st1]|] eqn:Hcmd;
      [|discriminate].
    apply runcmd_returns_zero in Hcmd. subst status.
    simpl in Hrun. now apply IH in Hrun.
  - now apply IH in Hrun.
Qed.

(** X9: [monitor] never leaves its loop: whatever lines it reads and
    whatever the trap frame, a run that has used up its lines is
    still waiting for the next one. *)
Theorem monitor_never_exits (fuel : nat)
  (lines : list (option (list ascii))) (tf : option Trapframe)
  (st st' : Machine Mem) (left : bool) :
  repl fuel lines tf st = Some (left, st') -> left = false.
Proof.
  unfold monitor, bind, cprintf. intros Hrun.
  destruct tf as [t|]; simpl in Hrun;
    now apply monitor_loop_stays in Hrun.
Qed.

(** A line whose command is not [backtrace] is dealt with once the
    fuel covers the sixteen turns of the parsing loop and the pages
    [mon_showmap] would inspect for the words of the line. *)
Lemma runcmd_finishes (fuel : nat) (line : list ascii)
  (tf : option Trapframe) (st : Machine Mem) :
  nth_error (words line) 0 <> Some "backtrace"%string ->
  (16 + pages_inspected strtol (Z.of_nat (List.length (words line)))
          (words line) <= fuel)%nat ->
  exists st', run fuel line tf st = Some (0, st').
Proof.
  intros Hnot Hfuel.
  destruct (Nat.le_gt_cases (List.length (words line)) 15) as [Hfit|Hmany].
  - destruct (words line) as [|w0 rest] eqn:Hwords.
    + eexists. apply runcmd_on_blank; [exact Hwords|lia].
    + destruct (in_dec string_dec w0 (map name commands)) as [Hin|Hout].
      * apply in_map_iff in Hin as (c & Hname & Hin).
        rewrite (runcmd_on_command fuel line tf st c)
          by (rewrite ?Hwords; simpl in *; try lia; try assumption;
              now rewrite Hname).
        rewrite Hwords in *.
        destruct Hin as [<-|[<-|[<-|[<-|[]]]]]; cbn [func call_command].
        -- apply mon_help_status.
        -- apply mon_kerninfo_status.
        -- simpl in Hname. subst w0. now contradiction Hnot.
        -- destruct (Z.lt_ge_cases (Z.of_nat (List.length (w0 :: rest))) 2)
             as [Hlt|Hge].
           ++ eexists. now apply mon_showmap_usage.
           ++ destruct (mon_showmap_run Mem mem_read kern_pgdir pgdir_walk
                          strtol Trapframe _ (w0 :: rest) tf st fuel Hge
                          ltac:(lia)) as (tr & Hrun & _).
              eexists. exact Hrun.
      * eexists. apply runcmd_on_unknown with (w0 := w0);
          rewrite ?Hwords; simpl in *; try lia; try reflexivity.
        exact Hout.
  - eexists. apply runcmd_on_too_many; lia.
Qed.

Lemma monitor_loop_finishes (lines : list (option (list ascii)))
  (tf : option Trapframe) :
  (forall buf, In (Some buf) lines ->
               nth_error (words buf) 0 <> Some "backtrace"%string) ->
  exists enough,
    forall fuel (st : Machine Mem),
      (enough <= fuel)%nat ->
      exists st',
        repl_loop fuel lines tf st = Some (false, st') /\
        session fuel tf lines st st'.
Proof.
  induction lines as [|[buf|] lines IH]; intros Hnot.
  - exists O. intros fuel st _. exists st. split; [reflexivity|constructor].
  - destruct IH as [enough IH];
      [intros b Hb; apply Hnot; now right|].
    exists (Nat.max enough
              (16 + pages_inspected strtol
                      (Z.of_nat (List.length (words buf))) (words buf))).
    intros fuel st Hfuel. cbn [monitor_loop]. unfold bind.
    destruct (runcmd_finishes fuel buf tf st) as [st1 Hcmd];
      [apply Hnot; now left|lia|].
    rewrite Hcmd. simpl.
    destruct (IH fuel st1 ltac:(lia)) as (st' & Hloop & Hsession).
    exists st'. split; [exact Hloop|].
    now apply session_line with (st1 := st1).
  - destruct IH as [enough IH];
      [intros b Hb; apply Hnot; now right|].
    exists enough. intros fuel st Hfuel. cbn [monitor_loop].
    destruct (IH fuel st Hfuel) as (st' & Hloop & Hsession).
    exists st'. split; [exact Hloop|]. now constructor.
Qed.

(** X10: [monitor] deals with every line it reads and then waits for
    more, as long as no line is a [backtrace] command (whose walk of
    the stack need not end): with enough fuel it returns without
    having left its loop, and the machine it leaves is the one
    reached by printing the two lines of welcome, then the trap frame
    if there is one, and then running [runcmd] on each line read, in
    order, each on the machine the one before left. *)
Theorem monitor_reads_every_line (lines : list (option (list ascii)))
  (tf : option Trapframe) (st : Machine Mem) :
  (forall buf, In (Some buf) lines ->
               nth_error (words buf) 0 <> Some "backtrace"%string) ->
  exists fuel st',
    repl fuel lines tf st = Some (false, st') /\
    session fuel tf lines (monitor_entry print_trapframe tf st) st'.
Proof.
  intros Hnot.
  destruct (monitor_loop_finishes lines tf Hnot) as [enough Hloop].
  exists enough. unfold monitor, monitor_entry, bind, cprintf.
  destruct tf as [t|]; simpl; now apply Hloop.
Qed.

End InterpreterFacts.

(** ** More on the two commands *)

Section CommandFacts.

Variable Mem : Type.
Variable mem_read : Mem -> Z -> Z.
Variable kern_pgdir : Mem -> Z.
Variable pgdir_walk : Mem -> Z -> Z -> Z -> Z * Mem.
Variable debuginfo_eip : Z -> Z * Eipdebuginfo.
Variable strtol : string -> Z -> Z.
Variable Trapframe : Type.

Local Abbreviation loop := (showmap_loop mem_read kern_pgdir pgdir_walk).
Local Abbreviation showmap :=
  (mon_showmap mem_read kern_pgdir pgdir_walk strtol
     (Trapframe := Trapframe)).
Local Abbreviation rows := (scan mem_read kern_pgdir pgdir_walk).
Local Abbreviation unwind := (backtrace_loop mem_read debuginfo_eip).
Local Abbreviation bt_returns :=
  (backtrace_returns mem_read debuginfo_eip (Trapframe := Trapframe)).
Local Abbreviation entry_of := (frame_entry mem_read debuginfo_eip).
Local Abbreviation resolves := (resolvable mem_read debuginfo_eip).

(** The calls of the walker the loop of [mon_showmap] makes over [n]
    pages from [va]. *)
Lemma showmap_loop_walks (n : nat) :
  forall va (st : Machine Mem) fuel,
    0 <= va ->
    va + Z.of_nat n * PGSIZE < WORD ->
    (n <= fuel)%nat ->
    exists tr st',
      loop fuel va (va + Z.of_nat n * PGSIZE) st = Some (tt, st') /\
      trace st' = trace st ++ tr /\
      List.length (walks tr) = n /\
      forall k, (k < n)%nat ->
        nth_error (walks tr) k =
          Some (wrap32 (kern_pgdir (snd (rows k va (mem st)))),
                va + Z.of_nat k * PGSIZE, 0).
Proof.
  induction n as [|n IH]; intros va st fuel Hva Hend Hfuel.
  - exists [], st. rewrite showmap_loop_done by lia.
    rewrite app_nil_r. repeat split. intros k Hk. lia.
  - destruct fuel as [|fuel]; [lia|].
    cbn [showmap_loop].
    destruct (Z.ltb_spec va (va + Z.of_nat (S n) * PGSIZE)) as [_|Hge];
      [|unfold PGSIZE in Hge; lia].
    unfold bind.
    destruct (showmap_body_run Mem mem_read kern_pgdir pgdir_walk va st)
      as (tr1 & -> & _ & Hw1).
    assert (Hstep : wrap32 (va + PGSIZE) = va + PGSIZE).
    { apply wrap32_small. unfold PGSIZE in *. lia. }
    rewrite Hstep.
    replace (va + Z.of_nat (S n) * PGSIZE)
      with (va + PGSIZE + Z.of_nat n * PGSIZE) in * by lia.
    edestruct (IH (va + PGSIZE)) as (tr2 & st' & -> & Htr & Hlen & Hnth);
      [unfold PGSIZE; lia|exact Hend|apply le_S_n, Hfuel|].
    cbn [ebp_reg mem trace] in *.
    exists (tr1 ++ tr2), st'. split; [reflexivity|].
    rewrite Htr, app_assoc, walks_app, Hw1. split; [reflexivity|].
    split; [simpl; now rewrite Hlen|].
    intros [|k] Hk; cbn [app nth_error scan snd].
    + do 3 f_equal. lia.
    + rewrite Hnth by lia. do 3 f_equal. lia.
Qed.

(** X11: whatever its arguments, [mon_showmap] with an address
    argument returns after fewer than 2^20 lookups; it looks up one
    address after the other, the first being the start address
    rounded down to its page and each next one a page further, all of
    them page-aligned and below 2^32, and always without creation. *)
Theorem showmap_lookups (argc : Z) (argv : list string)
  (tf : option Trapframe) (st : Machine Mem) :
  2 <= argc ->
  exists fuel st' tr,
    showmap fuel argc argv tf st = Some (0, st') /\
    trace st' = trace st ++ tr /\
    List.length (walks tr) = pages_inspected strtol argc argv /\
    Z.of_nat (pages_inspected strtol argc argv) < 1048576 /\
    forall k, (k < pages_inspected strtol argc argv)%nat ->
      let va := first_page strtol argv + Z.of_nat k * PGSIZE in
      (exists pgdir, nth_error (walks tr) k = Some (pgdir, va, 0)) /\
      va mod PGSIZE = 0 /\
      0 <= va < WORD.
Proof.
  intros Hargc.
  destruct (page_range_bounds strtol argc argv) as [Hlo Hhi].
  assert (Hal : first_page strtol argv mod PGSIZE = 0).
  { unfold first_page. rewrite ROUNDDOWN_page by apply wrap32_range.
    rewrite Z.mul_comm. now apply Z.mod_mul. }
  exists (pages_inspected strtol argc argv).
  rewrite mon_showmap_unfold by exact Hargc.
  destruct (Z.lt_ge_cases (first_page strtol argv)
              (end_page strtol argc argv)) as [Hlt|Hge].
  - pose proof (page_range_aligned strtol argc argv Hlt) as Hend.
    rewrite Hend in Hhi |- *.
    destruct (showmap_loop_walks (pages_inspected strtol argc argv)
                (first_page strtol argv) st
                (pages_inspected strtol argc argv) Hlo Hhi (le_n _))
      as (tr & st' & -> & Htr & Hlen & Hnth).
    exists st', tr. split; [reflexivity|]. split; [exact Htr|].
    split; [exact Hlen|]. split.
    + unfold WORD, PGSIZE in *. change (2 ^ 32) with 4294967296 in Hhi. lia.
    + intros k Hk va. split; [eexists; now apply Hnth|]. split.
      * unfold va. rewrite Z.mod_add by discriminate.
        exact Hal.
      * unfold va, PGSIZE in *. lia.
  - rewrite showmap_loop_done by exact Hge.
    assert (Hn : pages_inspected strtol argc argv = 0%nat).
    { unfold pages_inspected.
      assert ((end_page strtol argc argv - first_page strtol argv)
              / PGSIZE <= 0); [|lia].
      apply Z.div_le_upper_bound; [reflexivity|lia]. }
    rewrite Hn. exists st, []. rewrite app_nil_r. repeat split.
    all: lia.
Qed.

(** X12: a page count of zero makes [mon_showmap] return 0 at once:
    nothing is printed and nothing looked up, whatever the start
    address. *)
Theorem showmap_zero_pages (fuel : nat) (argc : Z) (argv : list string)
  (tf : option Trapframe) (st : Machine Mem) :
  page_count strtol argc argv = 0 ->
  showmap fuel argc argv tf st = Some (0, st).
Proof.
  intros Hzero.
  assert (Hargc : 2 <= argc).
  { unfold page_count in Hzero.
    destruct (Z.geb_spec argc 3); [lia|discriminate]. }
  rewrite mon_showmap_unfold by exact Hargc.
  rewrite showmap_loop_done; [reflexivity|].
  unfold end_page. rewrite Hzero. simpl.
  change (wrap32 0) with 0. rewrite Z.add_0_r.
  unfold start_address at 1. rewrite wrap32_idem.
  fold (start_address strtol argv). fold (first_page strtol argv). lia.
Qed.

(** The loop of [mon_backtrace] only ends on a walk that ends. *)
Lemma backtrace_loop_ended (fuel : nat) :
  forall ebp (st : Machine Mem) r,
    0 <= ebp < WORD ->
    unwind fuel ebp ebp st = Some r ->
    exists fps stop,
      frame_path mem_read (mem st) ebp fps stop = true /\
      forallb (resolves (mem st)) fps = true /\
      (stop = 0 \/ resolves (mem st) stop = false).
Proof.
  induction fuel as [|fuel IH]; intros ebp st r Hebp Hrun.
  - destruct (Z.eq_dec ebp 0) as [->|Hnz].
    + exists [], 0. repeat split. now left.
    + destruct (resolves (mem st) ebp) eqn:Hres.
      * exfalso. apply Z.eqb_neq in Hnz. unfold resolvable, slot in Hres.
        simpl in Hrun. rewrite Hnz in Hrun.
        unfold bind, load32, call_debuginfo_eip in Hrun. simpl in Hrun.
        rewrite Hres in Hrun. discriminate.
      * exists [], ebp. simpl. rewrite Z.eqb_refl. repeat split. now right.
  - destruct (Z.eq_dec ebp 0) as [->|Hnz].
    + exists [], 0. repeat split. now left.
    + destruct (resolves (mem st) ebp) eqn:Hres.
      * destruct (backtrace_loop_step Mem mem_read debuginfo_eip fuel ebp st
                    Hebp Hnz Hres) as (tr & _ & Hstep).
        rewrite Hstep in Hrun.
        apply IH in Hrun; [|apply slot_range].
        cbn [mem] in Hrun. destruct Hrun as (fps & stop & Hpath & Hall & Hstop).
        exists (ebp :: fps), stop. cbn [frame_path forallb].
        rewrite Z.eqb_refl, Hres, Hpath, Hall.
        apply Z.eqb_neq in Hnz. rewrite Hnz. repeat split. exact Hstop.
      * exists [], ebp. simpl. rewrite Z.eqb_refl. repeat split. now right.
Qed.

(** X13: [mon_backtrace] returns only when its walk ends: every run
    that returns has followed a chain of frames with resolvable
    return addresses up to a zero frame pointer or to a return
    address that does not resolve, has returned 0 and has printed the
    header and the entries of those frames. *)
Theorem backtrace_returns_after_walk (argc : Z) (argv : list string)
  (tf : option Trapframe) (st st' : Machine Mem) (status : Z) :
  bt_returns argc argv tf st (status, st') ->
  exists fps stop,
    frame_path mem_read (mem st) (wrap32 (ebp_reg st)) fps stop = true /\
    forallb (resolves (mem st)) fps = true /\
    (stop = 0 \/ resolves (mem st) stop = false) /\
    status = 0 /\
    console (trace st') =
      console (trace st) ++
      (fmt_backtrace_header, []) :: flat_map (entry_of (mem st)) fps.
Proof.
  intros Hret. pose proof Hret as [fuel Hrun].
  rewrite mon_backtrace_unfold in Hrun.
  destruct (unwind fuel _ _ _) as [[[] s]|] eqn:Hloop; [|discriminate].
  apply backtrace_loop_ended in Hloop; [|apply wrap32_range].
  cbn [log mem] in Hloop. destruct Hloop as (fps & stop & Hpath & Hall & Hstop).
  destruct (mon_backtrace_run Mem mem_read debuginfo_eip Trapframe argc argv
              tf st fps stop Hpath Hall Hstop) as (st0 & Hret0 & _ & Hc).
  pose proof (backtrace_returns_functional Mem mem_read debuginfo_eip
                Trapframe argc argv tf st _ _ Hret Hret0) as Heq.
  injection Heq as -> ->.
  exists fps, stop. repeat split; assumption.
Qed.

End CommandFacts.

(** ** The interpreter on the concrete machine *)

Local Abbreviation on_demo T :=
  (T Demo.Mem Demo.mem_read Demo.kern_pgdir Demo.pgdir_walk
     Demo.debuginfo_eip Demo.strtol Demo.Trapframe
     0x0010000C 0xF010000C 0xF0101A00 0xF0112300 0xF0112960
     Demo.KERNBASE Demo.ROUNDUP).

Lemma parse_args_words_witness :
  let line := list_ascii_of_string Demo.line_spaced in
  (List.length (words line) <= 15)%nat /\
  (List.length (words line) < 4)%nat /\
  exists ptrs,
    parse_args 4 [] line [] = Some (Parsed (blanked line) ptrs) /\
    map (c_string (blanked line)) ptrs = Demo.argv_two_pages.
Proof.
  intros line.
  assert (H1 : (List.length (words line) <= 15)%nat) by (vm_compute; lia).
  assert (H2 : (List.length (words line) < 4)%nat) by (vm_compute; lia).
  split; [exact H1|]. split; [exact H2|].
  exact (parse_args_words 4 line H1 H2).
Defined.

Lemma parse_args_arguments_witness :
  let line := list_ascii_of_string Demo.line_spaced in
  parse_args 4 [] line [] = Some (Parsed (blanked line) [2; 10; 22]%nat) /\
  (3 <= 15)%nat /\
  forallb is_word (map (c_string (blanked line)) [2; 10; 22]%nat) = true /\
  List.length (blanked line) = List.length line.
Proof.
  intros line.
  assert (H1 : parse_args 4 [] line [] =
               Some (Parsed (blanked line) [2; 10; 22]%nat))
    by (vm_compute; reflexivity).
  split; [exact H1|].
  exact (parse_args_arguments 4 line (blanked line) [2; 10; 22]%nat H1).
Defined.

Lemma parse_args_joined_witness :
  forallb is_word Demo.argv_two_pages = true /\
  (List.length Demo.argv_two_pages <= 15)%nat /\
  (List.length Demo.argv_two_pages < 4)%nat /\
  exists buffer ptrs,
    parse_args 4 [] (join_words Demo.argv_two_pages) [] =
      Some (Parsed buffer ptrs) /\
    map (c_string buffer) ptrs = Demo.argv_two_pages.
Proof.
  assert (H1 : forallb is_word Demo.argv_two_pages = true) by reflexivity.
  assert (H2 : (List.length Demo.argv_two_pages <= 15)%nat)
    by (vm_compute; lia).
  assert (H3 : (List.length Demo.argv_two_pages < 4)%nat)
    by (vm_compute; lia).
  split; [exact H1|]. split; [exact H2|]. split; [exact H3|].
  exact (parse_args_joined 4 Demo.argv_two_pages H1 H2 H3).
Defined.

Lemma runcmd_dispatch_witness :
  let line := list_ascii_of_string Demo.line_spaced in
  let c := {| name := "showmap";
              desc := "Display the physical address of virtual address";
              func := fn_mon_showmap |} in
  (List.length (words line) <= 15)%nat /\
  (List.length (words line) < 4)%nat /\
  In c commands /\
  nth_error (words line) 0 = Some (name c) /\
  Demo.runcmd 4 Demo.line_spaced (Demo.boot 0 Demo.paging) =
    Demo.showmap 4 3 Demo.argv_two_pages (Demo.boot 0 Demo.paging).
Proof.
  intros line c.
  assert (H1 : (List.length (words line) <= 15)%nat) by (vm_compute; lia).
  assert (H2 : (List.length (words line) < 4)%nat) by (vm_compute; lia).
  assert (H3 : In c commands) by (do 3 right; left; reflexivity).
  assert (H4 : nth_error (words line) 0 = Some (name c)) by reflexivity.
  repeat (split; [assumption|]).
  exact (on_demo runcmd_dispatch 4%nat line None
           (Demo.boot 0 Demo.paging) c H1 H2 H3 H4).
Defined.

Lemma runcmd_unknown_witness :
  let line := list_ascii_of_string "exit now" in
  (List.length (words line) <= 15)%nat /\
  (List.length (words line) < 3)%nat /\
  nth_error (words line) 0 = Some "exit"%string /\
  ~ In "exit"%string (map name commands) /\
  Demo.runcmd 3 "exit now" (Demo.boot 0 Demo.paging) =
    Some (0, log (EvCprintf fmt_unknown [ArgStr "exit"])
               (Demo.boot 0 Demo.paging)).
Proof.
  intros line.
  assert (H1 : (List.length (words line) <= 15)%nat) by (vm_compute; lia).
  assert (H2 : (List.length (words line) < 3)%nat) by (vm_compute; lia).
  assert (H3 : nth_error (words line) 0 = Some "exit"%string)
    by reflexivity.
  assert (H4 : ~ In "exit"%string (map name commands))
    by (simpl; intuition discriminate).
  repeat (split; [assumption|]).
  exact (on_demo runcmd_unknown 3%nat line None
           (Demo.boot 0 Demo.paging) "exit"%string H1 H2 H3 H4).
Defined.

Lemma runcmd_blank_witness :
  words (list_ascii_of_string (" " ++ Demo.tab ++ " ")) = [] /\
  (1 <= 1)%nat /\
  Demo.runcmd 1 (" " ++ Demo.tab ++ " ") (Demo.boot 0 Demo.paging) =
    Some (0, Demo.boot 0 Demo.paging).
Proof.
  assert (H1 : words (list_ascii_of_string (" " ++ Demo.tab ++ " ")) = [])
    by reflexivity.
  assert (H2 : (1 <= 1)%nat) by lia.
  repeat (split; [assumption|]).
  exact (on_demo runcmd_blank 1%nat
           (list_ascii_of_string (" " ++ Demo.tab ++ " ")) None
           (Demo.boot 0 Demo.paging) H1 H2).
Defined.

Lemma runcmd_too_many_witness :
  (15 < List.length (words (list_ascii_of_string Demo.line16)))%nat /\
  (16 <= 16)%nat /\
  Demo.runcmd 16 Demo.line16 (Demo.boot 0 Demo.paging) =
    Some (0, log (EvCprintf fmt_too_many [ArgInt 16])
               (Demo.boot 0 Demo.paging)).
Proof.
  assert (H1 : (15 < List.length
                       (words (list_ascii_of_string Demo.line16)))%nat)
    by (vm_compute; lia).
  assert (H2 : (16 <= 16)%nat) by lia.
  repeat (split; [assumption|]).
  exact (on_demo runcmd_too_many 16%nat
           (list_ascii_of_string Demo.line16) None
           (Demo.boot 0 Demo.paging) H1 H2).
Defined.

Lemma runcmd_status_witness :
  exists status st',
    Demo.runcmd 4 "kerninfo" (Demo.boot 0 Demo.paging) =
      Some (status, st') /\
    status = 0.
Proof.
  assert (Hrun : exists status st',
             Demo.runcmd 4 "kerninfo" (Demo.boot 0 Demo.paging) =
               Some (status, st'))
    by (vm_compute; eexists; eexists; reflexivity).
  destruct Hrun as (status & st' & Hrun).
  exists status, st'. split; [exact Hrun|].
  exact (on_demo runcmd_status 4%nat (list_ascii_of_string "kerninfo")
           None (Demo.boot 0 Demo.paging) st' status Hrun).
Defined.

Lemma monitor_never_exits_witness :
  exists left st',
    Demo.monitor 4 Demo.session (Some tt) (Demo.boot 0 Demo.paging) =
      Some (left, st') /\
    left = false.
Proof.
  assert (Hrun : exists left st',
             Demo.monitor 4 Demo.session (Some tt)
               (Demo.boot 0 Demo.paging) = Some (left, st'))
    by (vm_compute; eexists; eexists; reflexivity).
  destruct Hrun as (left & st' & Hrun).
  exists left, st'. split; [exact Hrun|].
  exact (on_demo monitor_never_exits Demo.print_trapframe 4%nat
           (map (option_map list_ascii_of_string) Demo.session) (Some tt)
           (Demo.boot 0 Demo.paging) st' left Hrun).
Defined.

Lemma monitor_reads_every_line_witness :
  (forall buf,
     In (Some buf) (map (option_map list_ascii_of_string) Demo.session) ->
     nth_error (words buf) 0 <> Some "backtrace"%string) /\
  exists fuel st',
    Demo.monitor fuel Demo.session (Some tt) (Demo.boot 0 Demo.paging) =
      Some (false, st').
Proof.
  assert (H1 : forall buf,
             In (Some buf)
               (map (option_map list_ascii_of_string) Demo.session) ->
             nth_error (words buf) 0 <> Some "backtrace"%string).
  { intros buf [H|[H|[H|[]]]]; inversion H; discriminate. }
  split; [exact H1|].
  destruct (on_demo monitor_reads_every_line Demo.print_trapframe
              (map (option_map list_ascii_of_string) Demo.session) (Some tt)
              (Demo.boot 0 Demo.paging) H1)
    as (fuel & st' & Hrun & _).
  exists fuel, st'. exact Hrun.
Defined.

Lemma showmap_lookups_witness :
  2 <= 3 /\
  exists fuel st' tr,
    Demo.showmap fuel 3 Demo.argv_unaligned (Demo.boot 0 Demo.paging) =
      Some (0, st') /\
    trace st' = tr /\
    List.length (walks tr) = 2%nat /\
    (exists pgdir, nth_error (walks tr) 1 = Some (pgdir, 0x00401000, 0)).
Proof.
  assert (H1 : 2 <= 3) by discriminate.
  destruct (showmap_lookups Demo.Mem Demo.mem_read Demo.kern_pgdir
              Demo.pgdir_walk Demo.strtol Demo.Trapframe 3
              Demo.argv_unaligned None (Demo.boot 0 Demo.paging) H1)
    as (fuel & st' & tr & Hrun & Htr & Hlen & _ & Hnth).
  split; [exact H1|].
  exists fuel, st', tr. split; [exact Hrun|]. split; [exact Htr|].
  split; [exact Hlen|].
  exact (proj1 (Hnth 1%nat (le_n 2))).
Defined.

Lemma showmap_zero_pages_witness :
  page_count Demo.strtol 3 Demo.argv_zero_pages = 0 /\
  Demo.showmap 0 3 Demo.argv_zero_pages (Demo.boot 0 Demo.paging) =
    Some (0, Demo.boot 0 Demo.paging).
Proof.
  assert (H1 : page_count Demo.strtol 3 Demo.argv_zero_pages = 0)
    by reflexivity.
  split; [exact H1|].
  exact (showmap_zero_pages Demo.Mem Demo.mem_read Demo.kern_pgdir
           Demo.pgdir_walk Demo.strtol Demo.Trapframe 0%nat 3
           Demo.argv_zero_pages None (Demo.boot 0 Demo.paging) H1).
Defined.

Lemma backtrace_returns_after_walk_witness :
  exists st' fps stop,
    Demo.backtrace_ends 1 Demo.argv_backtrace
      (Demo.boot 0xF010FF18 Demo.stack_broken) (0, st') /\
    frame_path Demo.mem_read Demo.stack_broken 0xF010FF18 fps stop = true /\
    (stop = 0 \/
     resolvable Demo.mem_read Demo.debuginfo_eip Demo.stack_broken stop
       = false).
Proof.
  assert (Hrun : exists st',
             Demo.backtrace 1 1 Demo.argv_backtrace
               (Demo.boot 0xF010FF18 Demo.stack_broken) = Some (0, st'))
    by (vm_compute; eexists; reflexivity).
  destruct Hrun as (st' & Hrun).
  assert (Hret : Demo.backtrace_ends 1 Demo.argv_backtrace
                   (Demo.boot 0xF010FF18 Demo.stack_broken) (0, st'))
    by (exists 1%nat; exact Hrun).
  destruct (backtrace_returns_after_walk Demo.Mem Demo.mem_read
              Demo.debuginfo_eip Demo.Trapframe 1 Demo.argv_backtrace None
              (Demo.boot 0xF010FF18 Demo.stack_broken) st' 0 Hret)
    as (fps & stop & Hpath & _ & Hstop & _).
  exists st', fps, stop. split; [exact Hret|]. split; assumption.
Defined.
